(** * The weston-launch session launcher (libweston/launcher-weston-launch.c)

    A shallow embedding of the client side of the weston-launch protocol:
    the connection object, the synchronous device-open request with its
    deferred DEACTIVATE handling, the readiness callback, the VT
    restoration sequence, connection set-up from the environment and
    tear-down.

    The operating system and the Wayland event loop are modelled as
    explicit state: the results of the coming [send], [recv] and
    [recvmsg] calls are scripts consumed call by call, [ioctl] answers
    come from an oracle, and every externally visible action is appended
    to a chronological trace. *)

From stdpp Require Import base gmap strings list.
From Stdlib Require Import ZArith Lia Ascii String.

Local Open Scope Z_scope.

(** ** Constants of the system headers *)

Module Sys.
(* <errno.h> *)
Definition EINTR : Z := 4.
Definition ENOMEM : Z := 12.
Definition EPIPE : Z := 32.
(* <sys/socket.h> *)
Definition SOL_SOCKET : Z := 1.
Definition SCM_RIGHTS : Z := 1.
(* <fcntl.h> *)
Definition FD_CLOEXEC : Z := 1.
(* <linux/kd.h>, <linux/vt.h>; KDSKBMUTE is the fallback define of the file *)
Definition KDSKBMUTE : Z := 0x4B51.
Definition KDSKBMODE : Z := 0x4B45.
Definition KDSETMODE : Z := 0x4B3A.
Definition K_UNICODE : Z := 3.
Definition KD_TEXT : Z := 0.
Definition VT_SETMODE : Z := 0x5602.
Definition VT_ACTIVATE : Z := 0x5606.
Definition VT_AUTO : Z := 0.
(* <wayland-server-core.h> *)
Definition WL_EVENT_READABLE : Z := 1.
Definition WL_EVENT_HANGUP : Z := 4.
Definition WL_EVENT_ERROR : Z := 8.
(* sizeof (int) and sizeof (struct { int id; int ret; }) on Linux *)
Definition sizeof_int : Z := 4.
Definition sizeof_event : Z := 8.
End Sys.
Import Sys.

(** ** Declarations the file takes from headers that are not among the sources *)

(** weston-launch.h: the opcodes of the wire protocol and the size of the
    fixed part of [struct weston_launcher_open].  Their values are left
    open; the cases of the [switch] in [launcher_weston_launch_data] make
    ACTIVATE and DEACTIVATE distinct. *)
Class weston_launch_h := {
  WESTON_LAUNCHER_OPEN : Z;
  WESTON_LAUNCHER_ACTIVATE : Z;
  WESTON_LAUNCHER_DEACTIVATE : Z;
  WESTON_LAUNCHER_DEACTIVATE_DONE : Z;
  WESTON_LAUNCHER_OPEN_REPLY : Z;
  sizeof_weston_launcher_open : Z;
  switch_cases_distinct : WESTON_LAUNCHER_ACTIVATE <> WESTON_LAUNCHER_DEACTIVATE
}.

(** shared/string-helpers.h: [safe_strtoint str value] stores the parsed
    integer and returns true, or returns false. *)
Class string_helpers_h := {
  safe_strtoint : string -> option Z
}.

(** ** Data model *)

(** [struct launcher_weston_launch].  [base] and [compositor] are links to
    objects kept in the session state below; [source] is the event-source
    pointer, 0 for NULL. *)
Record launcher_weston_launch := mkLauncher {
  fd : Z;
  source : Z;
  kb_mode : Z;
  tty : Z;
  drm_fd : Z;
  deferred_deactivate : Z
}.

(** The first control message of a [struct msghdr] after [recvmsg], as
    [CMSG_FIRSTHDR] and [CMSG_DATA] read it; [cmsg_fd] is the [fd] member of
    [union cmsg_data]. *)
Record cmsghdr := mkCmsg {
  cmsg_level : Z;
  cmsg_type : Z;
  cmsg_fd : Z
}.

(** What one [recv] or [recvmsg] call leaves behind: its return value, the
    [errno] of a failed call, the two integers of the receive buffer as they
    stand after the call ([event.id], [event.ret]; for [recv] into [ret] only
    the first), and the first control message, if any. *)
Record recv_result := mkRecv {
  r_len : Z;
  r_errno : Z;
  r_id : Z;
  r_ret : Z;
  r_cmsg : option cmsghdr
}.

(** The return value and [errno] of one [send] call. *)
Record send_result := mkSend {
  s_len : Z;
  s_errno : Z
}.

(** What is handed to [send]. *)
Inductive wire :=
| MsgOpen (opcode flags : Z) (path : string)   (* struct weston_launcher_open *)
| MsgInt (value : Z).                          (* a single int *)

(** The callbacks this file registers with [wl_event_loop_add_idle]. *)
Inductive idle_cb := IdleDeactivate.

(** Externally visible actions, in the order they happen. *)
Inductive event :=
| EvSend (sockfd : Z) (buf : wire) (buflen : Z)  (* one send(2) call *)
| EvRecvmsg (sockfd : Z) (r : recv_result)       (* one recvmsg(2) call *)
| EvRecv (sockfd : Z) (r : recv_result)          (* one recv(2) call *)
| EvSignal (session_active : bool)               (* wl_signal_emit (session_signal) *)
| EvAddIdle (cb : idle_cb)                       (* wl_event_loop_add_idle *)
| EvIoctl (fildes request arg : Z)               (* one ioctl(2) call *)
| EvDropMaster (fildes : Z)                      (* drmDropMaster *)
| EvClose (fildes : Z)                           (* close(2) *)
| EvAddFd (fildes mask : Z)                      (* wl_event_loop_add_fd *)
| EvSourceRemove (src : Z)                       (* wl_event_source_remove *)
| EvFree                                         (* free (launcher) *)
| EvLog (fmt : string) (args : list Z)           (* weston_log *)
| EvStderr (msg : string).                       (* fprintf (stderr, ...) *)

(** The running session: the connection object, the compositor's
    [session_active] flag, the idle callbacks pending on the event loop, and
    the environment the calls run against. *)
Record session := mkSession {
  launcher : launcher_weston_launch;
  session_active : bool;
  idle : list idle_cb;
  inbox : list recv_result;        (* results of the coming recv/recvmsg calls *)
  sendq : list send_result;        (* results of the coming send calls *)
  ioctl_ret : Z -> Z -> Z -> Z;    (* return value of ioctl (fd, request, arg) *)
  heap_exhausted : bool;           (* malloc returns NULL *)
  trace : list event
}.

Definition set_launcher (l : launcher_weston_launch) (s : session) : session :=
  mkSession l (session_active s) (idle s) (inbox s) (sendq s) (ioctl_ret s)
            (heap_exhausted s) (trace s).
Definition set_session_active (b : bool) (s : session) : session :=
  mkSession (launcher s) b (idle s) (inbox s) (sendq s) (ioctl_ret s)
            (heap_exhausted s) (trace s).
Definition set_idle (q : list idle_cb) (s : session) : session :=
  mkSession (launcher s) (session_active s) q (inbox s) (sendq s) (ioctl_ret s)
            (heap_exhausted s) (trace s).
Definition set_inbox (q : list recv_result) (s : session) : session :=
  mkSession (launcher s) (session_active s) (idle s) q (sendq s) (ioctl_ret s)
            (heap_exhausted s) (trace s).
Definition set_sendq (q : list send_result) (s : session) : session :=
  mkSession (launcher s) (session_active s) (idle s) (inbox s) q (ioctl_ret s)
            (heap_exhausted s) (trace s).
Definition emit (e : event) (s : session) : session :=
  mkSession (launcher s) (session_active s) (idle s) (inbox s) (sendq s) (ioctl_ret s)
            (heap_exhausted s) (trace s ++ [e]).

Definition set_deferred_deactivate (v : Z) (s : session) : session :=
  let l := launcher s in
  set_launcher (mkLauncher (fd l) (source l) (kb_mode l) (tty l) (drm_fd l) v) s.

(** ** A small monad for calls that may return, terminate the process or block *)

Inductive outcome (A : Type) :=
| Done (a : A)           (* the call returned a *)
| Exited (status : Z)    (* the call ended the process through exit *)
| Blocked.               (* the call waits on a read that the script never answers *)
Arguments Done {A} a.
Arguments Exited {A} status.
Arguments Blocked {A}.

Definition M (A : Type) : Type := session -> outcome A * session.

Definition ret {A} (a : A) : M A := fun s => (Done a, s).

Definition bind {A B} (m : M A) (f : A -> M B) : M B :=
  fun s =>
    match m s with
    | (Done a, s') => f a s'
    | (Exited c, s') => (Exited c, s')
    | (Blocked, s') => (Blocked, s')
    end.

Definition exit {A} (status : Z) : M A := fun s => (Exited status, s).
Definition get {A} (f : session -> A) : M A := fun s => (Done (f s), s).
Definition modify (f : session -> session) : M unit := fun s => (Done tt, f s).
Definition when (b : bool) (m : M unit) : M unit := if b then m else ret tt.

Declare Scope launch_scope.
Delimit Scope launch_scope with launch.
Notation "x <- m ;; k" := (bind m (fun x => k))
  (at level 100, m at next level, right associativity) : launch_scope.
Notation "m ;; k" := (bind m (fun _ => k))
  (at level 100, right associativity) : launch_scope.
Local Open Scope launch_scope.

(** A C integer used as a condition. *)
Definition truthy (v : Z) : bool := negb (v =? 0).

(** [len < 0 && errno == EINTR], the condition of every retry loop. *)
Definition interrupted (len errno : Z) : bool := (len <? 0) && (errno =? EINTR).

(** ** The functions of launcher-weston-launch.c *)

Section Launcher.
Context {proto : weston_launch_h}.

(** The [do ... while (len < 0 && errno == EINTR)] loop around [send].  When
    the script holds no further result the kernel takes the whole buffer.
    A [send] that waits on a full socket buffer is outside the model: every
    modelled [send] returns, so what is said below about a call returning or
    waiting is said of its reads, or under the condition that it returns. *)
Fixpoint send_loop (sockfd : Z) (buf : wire) (buflen : Z)
         (q : list send_result) (s : session) : outcome Z * session :=
  match q with
  | [] => (Done buflen, emit (EvSend sockfd buf buflen) s)
  | r :: q' =>
      let s' := emit (EvSend sockfd buf buflen) (set_sendq q' s) in
      if interrupted (s_len r) (s_errno r)
      then send_loop sockfd buf buflen q' s'
      else (Done (s_len r), s')
  end.

Definition launcher_weston_launch_send (sockfd : Z) (buf : wire) (buflen : Z) : M Z :=
  fun s => send_loop sockfd buf buflen (sendq s) s.

Definition wl_signal_emit_session : M unit :=
  active <- get session_active;;
  modify (emit (EvSignal active)).

Definition handle_deactivate : M unit :=
  modify (set_session_active false);;
  wl_signal_emit_session;;
  let reply := WESTON_LAUNCHER_DEACTIVATE_DONE in
  l <- get launcher;;
  _ <- launcher_weston_launch_send (fd l) (MsgInt reply) sizeof_int;;
  ret tt.

Definition idle_deactivate : M unit :=
  l <- get launcher;;
  if truthy (deferred_deactivate l) then
    modify (set_deferred_deactivate 0);;
    handle_deactivate
  else ret tt.

Definition wl_event_loop_add_idle (cb : idle_cb) (s : session) : session :=
  emit (EvAddIdle cb) (set_idle (idle s ++ [cb]) s).

(** One [recvmsg] call on the socket answered by [r], the rest of the
    script left for later calls. *)
Definition received (r : recv_result) (rest : list recv_result) (s : session) : session :=
  emit (EvRecvmsg (fd (launcher s)) r) (set_inbox rest s).

Definition unexpected_event (r : recv_result) : event :=
  EvLog "unexpected event %d (len=%zd) from weston-launch" [r_id r; r_len r].

(** How the [while (1)] loop of [launcher_weston_launch_open] is left. *)
Inductive loop_exit :=
| LoopBreak (r : recv_result)   (* break: r is the message in event and msg *)
| LoopReturn (code : Z).        (* return code from inside the loop *)

(** The receive loop of [launcher_weston_launch_open]: the inner retry loop
    around [recvmsg] and the outer [while (1)], both advancing through the
    same script of results.  An empty script is a [recvmsg] that never
    returns. *)
Fixpoint open_wait (q : list recv_result) (s : session) : outcome loop_exit * session :=
  match q with
  | [] => (Blocked, s)
  | r :: q' =>
      let s1 := received r q' s in
      if interrupted (r_len r) (r_errno r) then open_wait q' s1
      else if (r_len r =? sizeof_event) && (r_id r =? WESTON_LAUNCHER_OPEN_REPLY)
      then (Done (LoopBreak r), s1)
      else if (r_len r =? sizeof_int) && (r_id r =? WESTON_LAUNCHER_DEACTIVATE)
              && (deferred_deactivate (launcher s1) =? 0)
      then open_wait q' (set_deferred_deactivate 1 (wl_event_loop_add_idle IdleDeactivate s1))
      else (Done (LoopReturn (-1)), emit (unexpected_event r) s1)
  end.

(** The checks of [launcher_weston_launch_open] after the loop. *)
Definition open_reply (r : recv_result) : M Z :=
  if r_ret r <? 0 then ret (-1)
  else
    match r_cmsg r with
    | None =>
        modify (emit (EvStderr "invalid control message"));; ret (-1)
    | Some cmsg =>
        if negb (cmsg_level cmsg =? SOL_SOCKET) || negb (cmsg_type cmsg =? SCM_RIGHTS)
        then modify (emit (EvStderr "invalid control message"));; ret (-1)
        else if cmsg_fd cmsg =? -1
        then modify (emit (EvStderr "missing drm fd in socket request"));; ret (-1)
        else ret (cmsg_fd cmsg)
    end.

(** [launcher_weston_launch_open] from the [while (1)] loop to its end:
    the call awaiting its OPEN_REPLY. *)
Definition open_receive : M Z :=
  x <- (fun s => open_wait (inbox s) s);;
  match x with
  | LoopReturn code => ret code
  | LoopBreak r => open_reply r
  end.

(** [n] is computed in [int]; paths long enough to overflow it are outside
    the model. *)
Definition launcher_weston_launch_open (path : string) (flags : Z) : M Z :=
  let n := sizeof_weston_launcher_open + Z.of_nat (String.length path) + 1 in
  oom <- get heap_exhausted;;
  if oom : bool then ret (-1)
  else
    l <- get launcher;;
    _ <- launcher_weston_launch_send (fd l) (MsgOpen WESTON_LAUNCHER_OPEN flags path) n;;
    open_receive.

Definition launcher_weston_launch_close (fildes : Z) : M unit :=
  modify (emit (EvClose fildes)).

Definition ioctl (fildes request arg : Z) : M Z :=
  modify (emit (EvIoctl fildes request arg));;
  get (fun s => ioctl_ret s fildes request arg).

Definition weston_log (fmt : string) (args : list Z) : M unit :=
  modify (emit (EvLog fmt args)).

(** [drmDropMaster] is libdrm's or the stub of the file; its result is
    dropped either way. *)
Definition drmDropMaster (fildes : Z) : M unit :=
  modify (emit (EvDropMaster fildes)).

(** The argument of VT_SETMODE is a zeroed [struct vt_mode] whose [mode]
    member is VT_AUTO; the model passes that member. *)
Definition launcher_weston_launch_restore : M unit :=
  l <- get launcher;;
  r1 <- ioctl (tty l) KDSKBMUTE 0;;
  (if truthy r1 then
     r2 <- ioctl (tty l) KDSKBMODE (kb_mode l);;
     when (truthy r2) (weston_log "failed to restore kb mode: %s" [])
   else ret tt);;
  r3 <- ioctl (tty l) KDSETMODE KD_TEXT;;
  when (truthy r3) (weston_log "failed to set KD_TEXT mode on tty: %s" []);;
  drmDropMaster (drm_fd l);;
  r4 <- ioctl (tty l) VT_SETMODE VT_AUTO;;
  when (r4 <? 0) (weston_log "could not reset vt handling" []).

(** The retry loop around [recv] in [launcher_weston_launch_data]. *)
Fixpoint recv_loop (q : list recv_result) (s : session) : outcome recv_result * session :=
  match q with
  | [] => (Blocked, s)
  | r :: q' =>
      let s1 := emit (EvRecv (fd (launcher s)) r) (set_inbox q' s) in
      if interrupted (r_len r) (r_errno r) then recv_loop q' s1
      else (Done r, s1)
  end.

(** [launcher_weston_launch_data] from its [recv] loop to its end; in the
    [switch (ret)], [ret] is the integer [recv] wrote. *)
Definition read_notification : M Z :=
  r <- (fun s => recv_loop (inbox s) s);;
  (if r_id r =? WESTON_LAUNCHER_ACTIVATE then
     modify (set_session_active true);;
     wl_signal_emit_session
   else if r_id r =? WESTON_LAUNCHER_DEACTIVATE then
     handle_deactivate
   else
     weston_log "unexpected event from weston-launch" []);;
  ret 1.

Definition launcher_weston_launch_data (fildes mask : Z) : M Z :=
  if truthy (Z.land mask (Z.lor WL_EVENT_HANGUP WL_EVENT_ERROR)) then
    weston_log "launcher socket closed, exiting" [];;
    launcher_weston_launch_restore;;
    exit (-1)
  else
    l <- get launcher;;
    if truthy (deferred_deactivate l) then
      modify (set_deferred_deactivate 0);;
      handle_deactivate;;
      ret 1
    else read_notification.

Definition launcher_weston_launch_activate_vt (vt : Z) : M Z :=
  l <- get launcher;;
  ioctl (tty l) VT_ACTIVATE vt.

(** [free (launcher)] is the event [EvFree]: the [launcher] field of the
    session it leaves stands for freed storage, and nothing below reads
    it. *)
Definition launcher_weston_launch_destroy : M unit :=
  l <- get launcher;;
  (if negb (fd l =? -1) then
     modify (emit (EvClose (fd l)));;
     modify (emit (EvSourceRemove (source l)))
   else
     launcher_weston_launch_restore);;
  when (0 <=? tty l) (modify (emit (EvClose (tty l))));;
  modify (emit EvFree).

End Launcher.

(** ** Connection set-up from the environment *)

(** The part of the process [launcher_weston_launch_connect] reads and
    changes: the environment variables, and the open descriptors with their
    descriptor flags. *)
Record process := mkProcess {
  environ : gmap string string;
  fdflags : gmap Z Z
}.

(** [fcntl (fd, F_GETFD)]: the flags of an open descriptor, -1 otherwise. *)
Definition fcntl_getfd (p : process) (fildes : Z) : Z :=
  default (-1) (fdflags p !! fildes).

(** What [launcher_weston_launch_connect] hands back: its return value, the
    object stored through [out] (if any), the process afterwards and the
    actions taken. *)
Record connected := mkConnected {
  c_ret : Z;
  c_out : option launcher_weston_launch;
  c_process : process;
  c_trace : list event
}.

Section Connect.
Context {helpers : string_helpers_h}.

Definition launcher_weston_environment_get_fd (env : string) (p : process)
  : Z * process * list event :=
  match environ p !! env with
  | None => (-1, p, [EvLog "could not get launcher fd from env" []])
  | Some e =>
      match safe_strtoint e with
      | None => (-1, p, [EvLog "could not get launcher fd from env" []])
      | Some fildes =>
          let flags := fcntl_getfd p fildes in
          if flags =? -1
          then (-1, p, [EvLog "could not get fd flags!, env: %s, error: %s" []])
          else (fildes,
                mkProcess (delete env (environ p))
                          (<[fildes := Z.lor flags FD_CLOEXEC]> (fdflags p)),
                [])
      end
  end.

(** [malloc_ok] tells whether [malloc] returned an object, [src] is the
    pointer [wl_event_loop_add_fd] returns (0 for NULL).  The parameters
    [tty], [seat_id] and [sync_drm] are not used by the function. *)
Definition launcher_weston_launch_connect (malloc_ok : bool) (src : Z)
           (tty_arg : Z) (seat_id : string) (sync_drm : bool) (p : process)
  : connected :=
  if negb malloc_ok then mkConnected (- ENOMEM) None p []
  else
    let '(sock, p1, t1) := launcher_weston_environment_get_fd "WESTON_LAUNCHER_SOCK" p in
    if sock =? -1 then mkConnected (-1) None p1 (t1 ++ [EvFree])
    else
      let '(term, p2, t2) := launcher_weston_environment_get_fd "WESTON_TTY_FD" p1 in
      let t3 := t1 ++ t2 ++ [EvAddFd sock WL_EVENT_READABLE] in
      if src =? 0
      then mkConnected (- ENOMEM) None p2
             (t3 ++ [EvFree;
                     EvLog "failed to get weston-launcher socket fd event source" []])
      else mkConnected 0 (Some (mkLauncher sock src K_UNICODE term (-1) 0)) p2 t3.

End Connect.

(** ** The event loop around the connection *)

(** What the compositor and its event loop do with a connection: call
    [open], run the oldest pending idle callback, or dispatch the socket's
    callback with an event mask. *)
Inductive action :=
| CallOpen (path : string) (flags : Z)
| DispatchIdle
| DispatchData (mask : Z).

Section EventLoop.
Context {proto : weston_launch_h}.

Definition dispatch_idle : M unit :=
  fun s =>
    match idle s with
    | [] => (Done tt, s)
    | IdleDeactivate :: q => idle_deactivate (set_idle q s)
    end.

Definition perform (a : action) : M unit :=
  match a with
  | CallOpen path flags => _ <- launcher_weston_launch_open path flags;; ret tt
  | DispatchIdle => dispatch_idle
  | DispatchData mask =>
      l <- get launcher;;
      _ <- launcher_weston_launch_data (fd l) mask;;
      ret tt
  end.

Fixpoint run (acts : list action) : M unit :=
  match acts with
  | [] => ret tt
  | a :: rest => perform a;; run rest
  end.

(** A session as it stands right after [launcher_weston_launch_connect]
    stored [l]: nothing pending, nothing done yet. *)
Definition boot (l : launcher_weston_launch) (active : bool)
           (rx : list recv_result) (tx : list send_result)
           (ioc : Z -> Z -> Z -> Z) (oom : bool) : session :=
  mkSession l active [] rx tx ioc oom [].

End EventLoop.

(** ** Concrete headers and inputs for the examples *)

(** Opcode values in the order of the enumerations of weston-launch.h; the
    theorems below hold for every choice of values. *)
#[export] Instance sample_protocol : weston_launch_h := {|
  WESTON_LAUNCHER_OPEN := 0;
  WESTON_LAUNCHER_ACTIVATE := 1;
  WESTON_LAUNCHER_DEACTIVATE := 2;
  WESTON_LAUNCHER_DEACTIVATE_DONE := 3;
  WESTON_LAUNCHER_OPEN_REPLY := 4;
  sizeof_weston_launcher_open := 8;
  switch_cases_distinct := ltac:(discriminate)
|}.

Fixpoint decimal_digits (s : string) (acc : Z) : option Z :=
  match s with
  | EmptyString => Some acc
  | String c rest =>
      let d := Z.of_N (Ascii.N_of_ascii c) - 48 in
      if (0 <=? d) && (d <=? 9) then decimal_digits rest (10 * acc + d) else None
  end.

(** Modelled from the spec: [safe_strtoint] of shared/string-helpers.h is
    not among the sources.  A slot holds a nonnegative decimal integer; the
    empty string, any other character and values outside [int] are
    rejected. *)
Definition decimal_int (s : string) : option Z :=
  match s with
  | EmptyString => None
  | _ =>
      match decimal_digits s 0 with
      | Some v => if v <=? 2147483647 then Some v else None
      | None => None
      end
  end.

#[export] Instance sample_helpers : string_helpers_h := {|
  safe_strtoint := decimal_int
|}.

Definition all_ioctls_succeed : Z -> Z -> Z -> Z := fun _ _ _ => 0.
Definition all_ioctls_fail : Z -> Z -> Z -> Z := fun _ _ _ => -1.

(** The helper's messages as [recvmsg] delivers them. *)
Definition open_reply_msg (result : Z) (attached : option Z) : recv_result :=
  mkRecv sizeof_event 0 WESTON_LAUNCHER_OPEN_REPLY result
         (option_map (mkCmsg SOL_SOCKET SCM_RIGHTS) attached).
Definition deactivate_msg : recv_result :=
  mkRecv sizeof_int 0 WESTON_LAUNCHER_DEACTIVATE 0 None.
Definition eintr_recv : recv_result := mkRecv (-1) EINTR 0 0 None.
Definition hangup_recv : recv_result := mkRecv 0 0 0 0 None.

(** A connected launcher: socket 5, terminal 6. *)
Definition sample_launcher : launcher_weston_launch :=
  mkLauncher 5 1 K_UNICODE 6 (-1) 0.

Definition sample_process : process :=
  mkProcess {[ "WESTON_LAUNCHER_SOCK" := "5"; "WESTON_TTY_FD" := "6" ]}
            {[ 5 := 0; 6 := 0 ]}.


(** The helper answers at once with descriptor 7. *)
Definition session_reply_7 : session :=
  boot sample_launcher true [open_reply_msg 0 (Some 7)] [] all_ioctls_succeed false.

(** The helper first announces a VT switch, then answers with descriptor 8. *)
Definition session_deactivate_then_reply_8 : session :=
  boot sample_launcher true [deactivate_msg; open_reply_msg 0 (Some 8)] []
       all_ioctls_succeed false.

(** The helper is gone: the read of the reply returns 0. *)
Definition session_peer_hangup : session :=
  boot sample_launcher true [hangup_recv] [] all_ioctls_succeed false.

(** A second DEACTIVATE arrives while one is already put off. *)
Definition session_two_deactivates : session :=
  boot sample_launcher true [deactivate_msg; deactivate_msg] [] all_ioctls_succeed false.

(** The helper answers with result 0 and no descriptor attached. *)
Definition session_reply_without_fd : session :=
  boot sample_launcher true [open_reply_msg 0 None] [] all_ioctls_succeed false.

(** The OPEN message cannot be sent (the one [send] fails with EPIPE), yet
    a reply with descriptor 7 is read. *)
Definition session_send_fails : session :=
  boot sample_launcher true [open_reply_msg 0 (Some 7)] [mkSend (-1) EPIPE]
       all_ioctls_succeed false.

(** A connection at tear-down time, every [ioctl] succeeding. *)
Definition session_quiet : session :=
  boot sample_launcher true [] [] all_ioctls_succeed false.

(** Only the socket variable is set in the environment. *)
Definition process_without_tty : process :=
  mkProcess {[ "WESTON_LAUNCHER_SOCK" := "5" ]} {[ 5 := 0 ]}.

(** The socket variable does not hold a number. *)
Definition process_bad_sock : process :=
  mkProcess {[ "WESTON_LAUNCHER_SOCK" := "five"; "WESTON_TTY_FD" := "6" ]}
            {[ 5 := 0; 6 := 0 ]}.

(** ** Vocabulary of the statements *)

(** The number of interrupted results at the head of a script of [send]
    results: how often the loop of [launcher_weston_launch_send] goes round
    again. *)
Fixpoint retries (q : list send_result) : nat :=
  match q with
  | [] => 0%nat
  | r :: q' => if interrupted (s_len r) (s_errno r) then S (retries q') else 0%nat
  end.

(** The first result that is not an interruption. *)
Definition send_value (buflen : Z) (q : list send_result) : Z :=
  match drop (retries q) q with
  | [] => buflen
  | r :: _ => s_len r
  end.

(** The session after a send that went round [retries] times. *)
Definition sent (sockfd : Z) (buf : wire) (buflen : Z) (s : session) : session :=
  mkSession (launcher s) (session_active s) (idle s) (inbox s)
            (drop (S (retries (sendq s))) (sendq s)) (ioctl_ret s) (heap_exhausted s)
            (trace s ++ repeat (EvSend sockfd buf buflen) (S (retries (sendq s)))).

Fixpoint count (p : event -> bool) (t : list event) : nat :=
  match t with
  | [] => 0%nat
  | e :: t' => ((if p e then 1 else 0) + count p t')%nat
  end.

(** The trace without the log lines: the calls made. *)
Fixpoint calls (t : list event) : list event :=
  match t with
  | [] => []
  | EvLog _ _ :: t' => calls t'
  | EvStderr _ :: t' => calls t'
  | e :: t' => e :: calls t'
  end.

Section Vocabulary.
Context {proto : weston_launch_h}.

(** The session after [handle_deactivate]: flag cleared, signal emitted,
    DEACTIVATE_DONE handed to [send]. *)
Definition delivered (s : session) : session :=
  sent (fd (launcher s)) (MsgInt WESTON_LAUNCHER_DEACTIVATE_DONE) sizeof_int
       (emit (EvSignal false) (set_session_active false s)).

(** The calls of one run of the restoration sequence on [s]. *)
Definition restore_calls (s : session) : list event :=
  let l := launcher s in
  [EvIoctl (tty l) KDSKBMUTE 0]
  ++ (if truthy (ioctl_ret s (tty l) KDSKBMUTE 0)
      then [EvIoctl (tty l) KDSKBMODE (kb_mode l)] else [])
  ++ [EvIoctl (tty l) KDSETMODE KD_TEXT;
      EvDropMaster (drm_fd l);
      EvIoctl (tty l) VT_SETMODE VT_AUTO].

(** A DEACTIVATE put off by [launcher_weston_launch_open]. *)
Definition is_deferral (e : event) : bool :=
  match e with EvAddIdle IdleDeactivate => true | _ => false end.

(** A DEACTIVATE read by [launcher_weston_launch_data] itself. *)
Definition is_direct (e : event) : bool :=
  match e with
  | EvRecv _ r => negb (interrupted (r_len r) (r_errno r))
                  && (r_id r =? WESTON_LAUNCHER_DEACTIVATE)
  | _ => false
  end.

(** A deactivation reaching the compositor. *)
Definition is_delivery (e : event) : bool :=
  match e with EvSignal false => true | _ => false end.

(** An acknowledgement handed to [send]. *)
Definition is_done_send (e : event) : bool :=
  match e with
  | EvSend _ (MsgInt v) _ => v =? WESTON_LAUNCHER_DEACTIVATE_DONE
  | _ => false
  end.

(** A call of the restoration sequence. *)
Definition is_restore_call (e : event) : bool :=
  match e with EvIoctl _ _ _ | EvDropMaster _ => true | _ => false end.

(** The bookkeeping of deferred deactivations: the flag is 0 or 1, a set
    flag has its idle callback pending, and every DEACTIVATE accepted so far
    has been delivered, but for the one the flag stands for. *)
Definition accounted (s : session) : Prop :=
  let d := deferred_deactivate (launcher s) in
  (d = 0 \/ d = 1) /\
  (d = 1 -> In IdleDeactivate (idle s)) /\
  (count is_delivery (trace s) + Z.to_nat d
   = count is_deferral (trace s) + count is_direct (trace s))%nat.

(** No hangup or error bit in the mask of a socket event. *)
Definition readable_only (mask : Z) : Prop :=
  Z.land mask (Z.lor WL_EVENT_HANGUP WL_EVENT_ERROR) = 0.

(** The session once [launcher_weston_launch_open] has sent its OPEN
    message. *)
Definition requested (path : string) (flags : Z) (s : session) : session :=
  sent (fd (launcher s)) (MsgOpen WESTON_LAUNCHER_OPEN flags path)
       (sizeof_weston_launcher_open + Z.of_nat (String.length path) + 1) s.

(** The session once the receive loop has put off the DEACTIVATE [r]. *)
Definition put_off (r : recv_result) (rest : list recv_result) (s : session) : session :=
  set_deferred_deactivate 1 (wl_event_loop_add_idle IdleDeactivate (received r rest s)).

(** What a call leaves alone when it neither delivers nor restores: the
    connection apart from its flag, the compositor's flag, and the counts of
    deliveries, direct reads, acknowledgements and restoration calls. *)
Definition quiet (s s' : session) : Prop :=
  fd (launcher s') = fd (launcher s)
  /\ source (launcher s') = source (launcher s)
  /\ kb_mode (launcher s') = kb_mode (launcher s)
  /\ tty (launcher s') = tty (launcher s)
  /\ drm_fd (launcher s') = drm_fd (launcher s)
  /\ session_active s' = session_active s
  /\ ioctl_ret s' = ioctl_ret s
  /\ heap_exhausted s' = heap_exhausted s
  /\ count is_delivery (trace s') = count is_delivery (trace s)
  /\ count is_direct (trace s') = count is_direct (trace s)
  /\ count is_done_send (trace s') = count is_done_send (trace s)
  /\ count is_restore_call (trace s') = count is_restore_call (trace s).

(** What the receive loop of [launcher_weston_launch_open] may do to the
    deferral state: nothing, or put off exactly one DEACTIVATE. *)
Definition deferral_step (s s' : session) : Prop :=
  let d := deferred_deactivate (launcher s) in
  let d' := deferred_deactivate (launcher s') in
  (d' = d /\ idle s' = idle s
   /\ count is_deferral (trace s') = count is_deferral (trace s))
  \/ (d = 0 /\ d' = 1 /\ idle s' = idle s ++ [IdleDeactivate]
      /\ count is_deferral (trace s') = S (count is_deferral (trace s))).

(** Two sessions that differ at most in what [send] did and will do: the
    results still to come from [send] and the trace. *)
Definition alike (s1 s2 : session) : Prop :=
  launcher s1 = launcher s2 /\ session_active s1 = session_active s2
  /\ idle s1 = idle s2 /\ inbox s1 = inbox s2.

(** The KDSKBMODE request that would restore the keyboard mode. *)
Definition is_kdskbmode (e : event) : bool :=
  match e with EvIoctl _ request _ => request =? KDSKBMODE | _ => false end.

(** What [launcher_weston_launch_destroy] does about the terminal. *)
Definition close_tty_calls (l : launcher_weston_launch) : list event :=
  if 0 <=? tty l then [EvClose (tty l)] else [].

End Vocabulary.

Section Vocabulary_connect.
Context {helpers : string_helpers_h}.

(** An environment slot that yields no descriptor: the variable is not
    set, or does not parse as an integer, or names a descriptor that is not
    open. *)
Definition slot_unusable (name : string) (p : process) : Prop :=
  match environ p !! name with
  | None => True
  | Some e =>
      match safe_strtoint e with
      | None => True
      | Some fildes => fdflags p !! fildes = None
      end
  end.

End Vocabulary_connect.

Definition is_free (e : event) : bool :=
  match e with EvFree => true | _ => false end.

Definition is_close (e : event) : bool :=
  match e with EvClose _ => true | _ => false end.

(** ** Vocabulary of the further properties *)

(** The value of the compositor's [session_active] after the signals of a
    trace, when it was [a] before: every emission carries the value the
    flag has at that moment. *)
Fixpoint replay (a : bool) (t : list event) : bool :=
  match t with
  | [] => a
  | EvSignal b :: t' => replay b t'
  | _ :: t' => replay a t'
  end.

(** A [send] result that is not an interruption. *)
Definition calm (r : send_result) : Prop :=
  interrupted (s_len r) (s_errno r) = false.

(** A script of reads without the interrupted ones. *)
Fixpoint completed (q : list recv_result) : list recv_result :=
  match q with
  | [] => []
  | r :: q' =>
      if interrupted (r_len r) (r_errno r) then completed q' else r :: completed q'
  end.

(** Every read of the script is interrupted. *)
Definition all_interrupted (q : list recv_result) : bool :=
  forallb (fun r => interrupted (r_len r) (r_errno r)) q.

(** The session after the socket callback has read through the
    interrupted results [pre] and then [r]. *)
Definition read_through (pre : list recv_result) (r : recv_result)
           (rest : list recv_result) (s : session) : session :=
  mkSession (launcher s) (session_active s) (idle s) rest (sendq s) (ioctl_ret s)
            (heap_exhausted s)
            (trace s ++ map (EvRecv (fd (launcher s))) (pre ++ [r])).

(** A descriptor table as the kernel keeps it: descriptor numbers and flag
    words are not negative. *)
Definition sane (p : process) : Prop :=
  forall fildes flags, fdflags p !! fildes = Some flags -> 0 <= fildes /\ 0 <= flags.

(** Two sessions that agree on the connection, the compositor's flag and
    the pending idle callbacks. *)
Definition same_state (s1 s2 : session) : Prop :=
  launcher s1 = launcher s2 /\ session_active s1 = session_active s2
  /\ idle s1 = idle s2.

(** The log lines of a trace. *)
Fixpoint logs (t : list event) : list event :=
  match t with
  | [] => []
  | EvLog fmt args :: t' => EvLog fmt args :: logs t'
  | EvStderr m :: t' => EvStderr m :: logs t'
  | _ :: t' => logs t'
  end.

(** A call of [send]. *)
Definition is_send (e : event) : bool :=
  match e with EvSend _ _ _ => true | _ => false end.

(** Two sessions whose connections hold the same descriptors, event source
    and cached keyboard mode. *)
Definition same_wiring (s s' : session) : Prop :=
  fd (launcher s') = fd (launcher s)
  /\ source (launcher s') = source (launcher s)
  /\ kb_mode (launcher s') = kb_mode (launcher s)
  /\ tty (launcher s') = tty (launcher s)
  /\ drm_fd (launcher s') = drm_fd (launcher s).

Section Vocabulary_further.
Context {proto : weston_launch_h}.

(** How a session moves on under the calls of the file: the trace only
    grows, [session_active] is what the signals emitted say, every delivery
    comes with at least one acknowledgement handed to [send], and with
    exactly one as long as no [send] is interrupted. *)
Definition evolves (s s' : session) : Prop :=
  exists ext,
    trace s' = trace s ++ ext
    /\ session_active s' = replay (session_active s) ext
    /\ (count is_delivery ext <= count is_done_send ext)%nat
    /\ (Forall calm (sendq s) ->
        Forall calm (sendq s') /\ count is_done_send ext = count is_delivery ext).

(** A read that lets [launcher_weston_launch_open] go on waiting: an
    interrupted one, or a DEACTIVATE. *)
Definition passed_over (r : recv_result) : Prop :=
  interrupted (r_len r) (r_errno r) = true
  \/ (r_len r = sizeof_int /\ r_id r = WESTON_LAUNCHER_DEACTIVATE).

End Vocabulary_further.

(** A VT switch away and back, read by the socket callback between two
    interrupted reads. *)
Definition session_switching : session :=
  boot sample_launcher true
       [eintr_recv; deactivate_msg; eintr_recv;
        mkRecv sizeof_int 0 WESTON_LAUNCHER_ACTIVATE 0 None]
       [] all_ioctls_succeed false.

(** A reply with descriptor 9 followed by an ACTIVATE. *)
Definition session_reply_then_activate : session :=
  boot sample_launcher true
       [open_reply_msg 0 (Some 9); mkRecv sizeof_int 0 WESTON_LAUNCHER_ACTIVATE 0 None]
       [] all_ioctls_succeed false.

(** ** Basic facts *)

Section Basics.
Context {proto : weston_launch_h}.

Lemma count_app p t u : count p (t ++ u) = (count p t + count p u)%nat.
Proof. induction t as [|e t IH]; simpl; [reflexivity | rewrite IH; lia]. Qed.

Lemma calls_app t u : calls (t ++ u) = calls t ++ calls u.
Proof.
  induction t as [|e t IH]; simpl; [reflexivity |].
  destruct e; simpl; rewrite ?IH; reflexivity.
Qed.

Lemma send_loop_sent sockfd buf buflen q :
  forall s, sendq s = q ->
    send_loop sockfd buf buflen q s = (Done (send_value buflen q), sent sockfd buf buflen s).
Proof.
  induction q as [|r q IH]; intros s Hq.
  - destruct s; simpl in *; subst; reflexivity.
  - simpl. unfold send_value. simpl.
    destruct (interrupted (s_len r) (s_errno r)) eqn:Hi.
    + rewrite IH by (destruct s; reflexivity).
      unfold send_value, sent. destruct s; simpl in *; subst; simpl. rewrite Hi.
      rewrite <- app_assoc. reflexivity.
    + unfold sent. destruct s; simpl in *; subst; simpl. rewrite Hi. reflexivity.
Qed.

Lemma launcher_weston_launch_send_sent sockfd buf buflen s :
  launcher_weston_launch_send sockfd buf buflen s
  = (Done (send_value buflen (sendq s)), sent sockfd buf buflen s).
Proof. apply send_loop_sent. reflexivity. Qed.

End Basics.

Section Closed_forms.
Context {proto : weston_launch_h}.

Lemma handle_deactivate_delivered s : handle_deactivate s = (Done tt, delivered s).
Proof.
  unfold handle_deactivate, wl_signal_emit_session, bind, modify, get. simpl.
  rewrite launcher_weston_launch_send_sent. reflexivity.
Qed.

Lemma idle_deactivate_eq s :
  idle_deactivate s
  = if truthy (deferred_deactivate (launcher s))
    then (Done tt, delivered (set_deferred_deactivate 0 s))
    else (Done tt, s).
Proof.
  unfold idle_deactivate, bind, modify, get. simpl.
  destruct (truthy _); [| reflexivity].
  simpl. rewrite handle_deactivate_delivered. reflexivity.
Qed.

Lemma delivered_trace s :
  trace (delivered s)
  = trace s ++ EvSignal false
      :: repeat (EvSend (fd (launcher s)) (MsgInt WESTON_LAUNCHER_DEACTIVATE_DONE) sizeof_int)
                (S (retries (sendq s))).
Proof. unfold delivered, sent. simpl. rewrite <- app_assoc. reflexivity. Qed.

Lemma count_repeat_false p e n : p e = false -> count p (repeat e n) = 0%nat.
Proof. intros H. induction n; simpl; [reflexivity | rewrite H, IHn; reflexivity]. Qed.

Lemma count_repeat_true p e n : p e = true -> count p (repeat e n) = n.
Proof. intros H. induction n; simpl; [reflexivity | rewrite H, IHn; reflexivity]. Qed.

Lemma restore_eq s :
  exists s',
    launcher_weston_launch_restore s = (Done tt, s')
    /\ launcher s' = launcher s /\ session_active s' = session_active s
    /\ idle s' = idle s /\ inbox s' = inbox s /\ sendq s' = sendq s
    /\ exists ext, trace s' = trace s ++ ext /\ calls ext = restore_calls s.
Proof.
  unfold launcher_weston_launch_restore, restore_calls, ioctl, drmDropMaster,
    weston_log, when, bind, modify, get, ret.
  destruct s as [l a i rx tx ioc oom t]. simpl.
  destruct (truthy (ioc (tty l) KDSKBMUTE 0)); simpl;
    [destruct (truthy (ioc (tty l) KDSKBMODE (kb_mode l))); simpl |];
    destruct (truthy (ioc (tty l) KDSETMODE KD_TEXT)); simpl;
    destruct (ioc (tty l) VT_SETMODE VT_AUTO <? 0); simpl;
    (eexists; split; [reflexivity |]; simpl; repeat (split; [reflexivity |]);
     rewrite <- ?app_assoc; simpl; eexists; split; [reflexivity | reflexivity]).
Qed.

End Closed_forms.

Section Receive_loops.
Context {proto : weston_launch_h}.

Lemma quiet_refl s : quiet s s.
Proof. unfold quiet. repeat split. Qed.

Lemma quiet_trans s1 s2 s3 : quiet s1 s2 -> quiet s2 s3 -> quiet s1 s3.
Proof. unfold quiet. intros H1 H2. intuition congruence. Qed.

Lemma quiet_received r rest s : quiet s (received r rest s).
Proof.
  unfold quiet, received. destruct s. simpl.
  rewrite !count_app. simpl. repeat split; lia.
Qed.

Lemma quiet_sent_open sockfd opcode flags path n s :
  quiet s (sent sockfd (MsgOpen opcode flags path) n s).
Proof.
  unfold quiet, sent. destruct s. simpl.
  rewrite !count_app. simpl. rewrite !count_repeat_false by reflexivity.
  repeat split; lia.
Qed.

Lemma quiet_emit_log e s :
  is_delivery e = false -> is_direct e = false ->
  is_done_send e = false -> is_restore_call e = false ->
  quiet s (emit e s).
Proof.
  intros H1 H2 H3 H4. unfold quiet. destruct s. simpl.
  rewrite !count_app. simpl. rewrite H1, H2, H3, H4. repeat split; lia.
Qed.

Lemma open_wait_effect q :
  forall s o s',
    open_wait q s = (o, s') ->
    quiet s s' /\ deferral_step s s'
    /\ (forall c, o <> Exited c)
    /\ (forall r, o = Done (LoopBreak r) ->
          r_len r = sizeof_event /\ r_id r = WESTON_LAUNCHER_OPEN_REPLY /\ In r q)
    /\ (forall c, o = Done (LoopReturn c) -> c = -1).
Proof.
  induction q as [|r q IH]; intros s o s' H; simpl in H.
  - inversion H; subst. split; [apply quiet_refl |].
    split; [left; auto |]. repeat split; intros; discriminate.
  - pose proof (quiet_received r q s) as Hq.
    assert (Hd1 : deferral_step s (received r q s)).
    { left. unfold received. destruct s. simpl. rewrite count_app. simpl.
      repeat split; lia. }
    assert (Hlater : forall o' : outcome loop_exit,
               (forall c, o' <> Exited c)
               /\ (forall r0, o' = Done (LoopBreak r0) ->
                     r_len r0 = sizeof_event
                     /\ r_id r0 = WESTON_LAUNCHER_OPEN_REPLY /\ In r0 q)
               /\ (forall c, o' = Done (LoopReturn c) -> c = -1) ->
               (forall c, o' <> Exited c)
               /\ (forall r0, o' = Done (LoopBreak r0) ->
                     r_len r0 = sizeof_event
                     /\ r_id r0 = WESTON_LAUNCHER_OPEN_REPLY /\ In r0 (r :: q))
               /\ (forall c, o' = Done (LoopReturn c) -> c = -1)).
    { intros o' (A & B & C). split; [exact A |]. split; [| exact C].
      intros r0 E. destruct (B r0 E) as (B1 & B2 & B3).
      repeat split; auto. right; exact B3. }
    destruct (interrupted (r_len r) (r_errno r)).
    { apply IH in H. destruct H as (Hq' & Hd' & Hrest).
      split; [eapply quiet_trans; eauto |]. split; [| apply Hlater; exact Hrest].
      unfold deferral_step in *.
      destruct Hd1 as [(E1 & E2 & E3)|(E0 & E1 & _)];
        [| unfold received in E1; destruct s; simpl in *; lia].
      rewrite <- E1, <- E2, <- E3. exact Hd'. }
    destruct ((r_len r =? sizeof_event) && (r_id r =? WESTON_LAUNCHER_OPEN_REPLY)) eqn:Hrep.
    { inversion H; subst. split; [exact Hq |]. split; [exact Hd1 |].
      apply andb_true_iff in Hrep. destruct Hrep as [L I].
      apply Z.eqb_eq in L, I.
      split; [intros; discriminate |]. split; [| intros; discriminate].
      intros r0 E. inversion E; subst. repeat split; auto. left; reflexivity. }
    destruct ((r_len r =? sizeof_int) && (r_id r =? WESTON_LAUNCHER_DEACTIVATE)
              && (deferred_deactivate (launcher s) =? 0)) eqn:Hdea.
    { apply IH in H. destruct H as (Hq' & Hd' & Hrest).
      apply andb_true_iff in Hdea. destruct Hdea as [_ D0]. apply Z.eqb_eq in D0.
      split.
      { eapply quiet_trans; [exact Hq |]. eapply quiet_trans; [| exact Hq'].
        unfold quiet, set_deferred_deactivate, wl_event_loop_add_idle, received.
        destruct s. simpl. rewrite !count_app. simpl. repeat split; lia. }
      split; [| apply Hlater; exact Hrest].
      unfold deferral_step in *.
      unfold set_deferred_deactivate, wl_event_loop_add_idle, received in *.
      destruct s as [l a i rx tx ioc oom t]. simpl in *.
      rewrite !count_app in *. simpl in *.
      destruct Hd' as [(E1 & E2 & E3)|(E0 & _)]; [| lia].
      right. rewrite E1, E2, E3. repeat split; try lia. }
    inversion H; subst.
    split.
    { eapply quiet_trans; [exact Hq |]. apply quiet_emit_log; reflexivity. }
    split.
    { unfold deferral_step in *. unfold received in *. destruct s. simpl in *.
      rewrite !count_app in *. simpl in *. left. repeat split; lia. }
    split; [intros; discriminate |]. split; [intros; discriminate |].
    intros c E. inversion E; reflexivity.
Qed.

End Receive_loops.

Section Open_request.
Context {proto : weston_launch_h}.

Lemma deferral_step_refl s : deferral_step s s.
Proof. left. auto. Qed.

Lemma open_reply_effect r s o s' :
  open_reply r s = (o, s') ->
  quiet s s' /\ deferral_step s s' /\ exists v, o = Done v.
Proof.
  unfold open_reply, bind, modify, ret. intros H.
  assert (Hlog : forall m, quiet s (emit (EvStderr m) s)
                           /\ deferral_step s (emit (EvStderr m) s)).
  { intros m. split; [apply quiet_emit_log; reflexivity |].
    left. destruct s. simpl. rewrite count_app. simpl. repeat split; lia. }
  destruct (r_ret r <? 0).
  { inversion H; subst. eauto using quiet_refl, deferral_step_refl. }
  destruct (r_cmsg r) as [c|].
  - destruct (negb (cmsg_level c =? SOL_SOCKET) || negb (cmsg_type c =? SCM_RIGHTS)).
    { inversion H; subst. destruct (Hlog "invalid control message"); eauto. }
    destruct (cmsg_fd c =? -1).
    { inversion H; subst. destruct (Hlog "missing drm fd in socket request"); eauto. }
    inversion H; subst. eauto using quiet_refl, deferral_step_refl.
  - inversion H; subst. destruct (Hlog "invalid control message"); eauto.
Qed.

Lemma deferral_step_quiet_l s1 s2 s3 :
  deferred_deactivate (launcher s2) = deferred_deactivate (launcher s1) ->
  idle s2 = idle s1 ->
  count is_deferral (trace s2) = count is_deferral (trace s1) ->
  deferral_step s2 s3 -> deferral_step s1 s3.
Proof. unfold deferral_step. intros E1 E2 E3. rewrite E1, E2, E3. auto. Qed.

Lemma deferral_step_quiet_r s1 s2 s3 :
  deferred_deactivate (launcher s3) = deferred_deactivate (launcher s2) ->
  idle s3 = idle s2 ->
  count is_deferral (trace s3) = count is_deferral (trace s2) ->
  deferral_step s1 s2 -> deferral_step s1 s3.
Proof. unfold deferral_step. intros E1 E2 E3. rewrite E1, E2, E3. auto. Qed.

Lemma open_receive_effect s o s' :
  open_receive s = (o, s') ->
  quiet s s' /\ deferral_step s s' /\ (forall c, o <> Exited c).
Proof.
  unfold open_receive, bind. intros H.
  destruct (open_wait (inbox s) s) as [x s1] eqn:Hw.
  apply open_wait_effect in Hw. destruct Hw as (Hq & Hd & Hne & _).
  destruct x as [[r|c]|c|].
  - apply open_reply_effect in H. destruct H as (Hq' & Hd' & v & ->).
    split; [eapply quiet_trans; eauto |]. split; [| intros; discriminate].
    unfold deferral_step in Hd'.
    destruct Hd' as [(E1 & E2 & E3)|(E0 & E1 & E2 & E3)].
    + eapply deferral_step_quiet_r; eauto.
    + destruct Hd as [(F1 & F2 & F3)|(F0 & F1 & _)]; [| lia].
      right. unfold deferral_step. rewrite <- F1, <- F2, <- F3. auto.
  - unfold ret in H. inversion H; subst.
    split; [exact Hq |]. split; [exact Hd |]. intros; discriminate.
  - exfalso. eapply Hne. reflexivity.
  - inversion H; subst.
    split; [exact Hq |]. split; [exact Hd |]. intros; discriminate.
Qed.

Lemma open_unfold path flags s :
  heap_exhausted s = false ->
  launcher_weston_launch_open path flags s
  = open_receive
      (sent (fd (launcher s)) (MsgOpen WESTON_LAUNCHER_OPEN flags path)
            (sizeof_weston_launcher_open + Z.of_nat (String.length path) + 1) s).
Proof.
  intros H. unfold launcher_weston_launch_open, bind, get. simpl. rewrite H.
  rewrite launcher_weston_launch_send_sent. reflexivity.
Qed.

Lemma open_effect path flags s o s' :
  launcher_weston_launch_open path flags s = (o, s') ->
  quiet s s' /\ deferral_step s s' /\ (forall c, o <> Exited c).
Proof.
  destruct (heap_exhausted s) eqn:Hoom.
  - unfold launcher_weston_launch_open, bind, get, ret. simpl. rewrite Hoom.
    intros H. inversion H; subst.
    split; [apply quiet_refl |]. split; [apply deferral_step_refl |].
    intros; discriminate.
  - rewrite open_unfold by assumption. intros H.
    apply open_receive_effect in H. destruct H as (Hq & Hd & Hne).
    split; [eapply quiet_trans; [apply quiet_sent_open | exact Hq] |].
    split; [| exact Hne].
    eapply deferral_step_quiet_l; [| | | exact Hd].
    + reflexivity.
    + reflexivity.
    + unfold sent. destruct s. simpl. rewrite count_app. simpl.
      rewrite count_repeat_false by reflexivity. lia.
Qed.

End Open_request.

(** ** Device brokering: the receive loop and the reply *)

Section Device_brokering.
Context {proto : weston_launch_h}.

Lemma open_receive_step s r rest :
  inbox s = r :: rest ->
  interrupted (r_len r) (r_errno r) = false ->
  open_receive s
  = if (r_len r =? sizeof_event) && (r_id r =? WESTON_LAUNCHER_OPEN_REPLY)
    then open_reply r (received r rest s)
    else if (r_len r =? sizeof_int) && (r_id r =? WESTON_LAUNCHER_DEACTIVATE)
            && (deferred_deactivate (launcher s) =? 0)
    then open_receive (put_off r rest s)
    else (Done (-1), emit (unexpected_event r) (received r rest s)).
Proof.
  intros Hin Hint. unfold open_receive at 1. unfold bind. rewrite Hin. simpl.
  rewrite Hint.
  destruct ((r_len r =? sizeof_event) && (r_id r =? WESTON_LAUNCHER_OPEN_REPLY));
    [reflexivity |].
  destruct ((r_len r =? sizeof_int) && (r_id r =? WESTON_LAUNCHER_DEACTIVATE)
            && (deferred_deactivate (launcher s) =? 0)); [| reflexivity].
  unfold open_receive, bind, put_off.
  replace (inbox (set_deferred_deactivate 1
                    (wl_event_loop_add_idle IdleDeactivate (received r rest s))))
    with rest by (destruct s; reflexivity).
  reflexivity.
Qed.

(** C1: while [launcher_weston_launch_open] awaits its OPEN_REPLY, a message
    that is not the OPEN_REPLY is treated in one of two ways.  A DEACTIVATE
    (a read of exactly one integer holding the DEACTIVATE opcode) arriving
    while [deferred_deactivate] is 0 schedules exactly one idle callback,
    sets the flag to 1, and the call goes on waiting on the rest of the
    input.  Any other message, and a DEACTIVATE arriving while the flag is
    already set, is logged as unexpected and the call returns -1 at once,
    leaving the rest of the input unread.  [open_receive] is the call from
    its receive loop on: what [launcher_weston_launch_open] does once the
    OPEN message has been handed to [send]. *)
Theorem open_receive_defers_one_deactivate :
  forall (s : session) (r : recv_result) (rest : list recv_result),
    inbox s = r :: rest ->
    interrupted (r_len r) (r_errno r) = false ->
    ~ (r_len r = sizeof_event /\ r_id r = WESTON_LAUNCHER_OPEN_REPLY) ->
    (r_len r = sizeof_int /\ r_id r = WESTON_LAUNCHER_DEACTIVATE
     /\ deferred_deactivate (launcher s) = 0 ->
       open_receive s = open_receive (put_off r rest s)
       /\ deferred_deactivate (launcher (put_off r rest s)) = 1
       /\ idle (put_off r rest s) = idle s ++ [IdleDeactivate]
       /\ trace (put_off r rest s)
          = trace s ++ [EvRecvmsg (fd (launcher s)) r; EvAddIdle IdleDeactivate]
       /\ inbox (put_off r rest s) = rest)
    /\
    (~ (r_len r = sizeof_int /\ r_id r = WESTON_LAUNCHER_DEACTIVATE
        /\ deferred_deactivate (launcher s) = 0) ->
       open_receive s = (Done (-1), emit (unexpected_event r) (received r rest s))
       /\ idle (emit (unexpected_event r) (received r rest s)) = idle s
       /\ launcher (emit (unexpected_event r) (received r rest s)) = launcher s
       /\ inbox (emit (unexpected_event r) (received r rest s)) = rest)
    /\
    (forall path flags s0,
       heap_exhausted s0 = false ->
       launcher_weston_launch_open path flags s0
       = open_receive (requested path flags s0)).
Proof.
  intros s r rest Hin Hint Hnot.
  pose proof (open_receive_step s r rest Hin Hint) as Hstep.
  destruct ((r_len r =? sizeof_event) && (r_id r =? WESTON_LAUNCHER_OPEN_REPLY)) eqn:Hrep.
  { exfalso. apply Hnot. apply andb_true_iff in Hrep. destruct Hrep as [L I].
    apply Z.eqb_eq in L, I. auto. }
  split; [| split].
  - intros (L & I & D). rewrite L, I, D, !Z.eqb_refl in Hstep. simpl in Hstep.
    split; [exact Hstep |].
    unfold put_off, set_deferred_deactivate, wl_event_loop_add_idle, received.
    destruct s. simpl. rewrite <- app_assoc. repeat split.
  - intros Hno.
    destruct ((r_len r =? sizeof_int) && (r_id r =? WESTON_LAUNCHER_DEACTIVATE)
              && (deferred_deactivate (launcher s) =? 0)) eqn:Hdea.
    { exfalso. apply Hno. apply andb_true_iff in Hdea. destruct Hdea as [Hdea D].
      apply andb_true_iff in Hdea. destruct Hdea as [L I].
      apply Z.eqb_eq in L, I, D. auto. }
    split; [exact Hstep |]. unfold received. destruct s. repeat split.
  - intros path flags s0 Hoom. apply open_unfold. exact Hoom.
Qed.

End Device_brokering.

Lemma open_receive_defers_one_deactivate_witness :
  open_receive session_deactivate_then_reply_8
  = open_receive (put_off deactivate_msg [open_reply_msg 0 (Some 8)]
                          session_deactivate_then_reply_8)
  /\ open_receive (put_off deactivate_msg [deactivate_msg] session_two_deactivates)
     = (Done (-1),
        emit (unexpected_event deactivate_msg)
             (received deactivate_msg []
                (put_off deactivate_msg [deactivate_msg] session_two_deactivates))).
Proof.
  split.
  - refine (proj1 (proj1 (open_receive_defers_one_deactivate
                            session_deactivate_then_reply_8 deactivate_msg
                            [open_reply_msg 0 (Some 8)] eq_refl eq_refl _) _)).
    + vm_compute. intros [H _]. discriminate H.
    + vm_compute. repeat split.
  - refine (proj1 (proj1 (proj2 (open_receive_defers_one_deactivate
                            (put_off deactivate_msg [deactivate_msg] session_two_deactivates)
                            deactivate_msg [] eq_refl eq_refl _)) _)).
    + vm_compute. intros [H _]. discriminate H.
    + vm_compute. intros (_ & _ & H). discriminate H.
Defined.

Section Open_reply_checks.
Context {proto : weston_launch_h}.

Lemma open_reply_eq r s :
  open_reply r s
  = if r_ret r <? 0 then (Done (-1), s)
    else match r_cmsg r with
         | None => (Done (-1), emit (EvStderr "invalid control message") s)
         | Some c =>
             if negb (cmsg_level c =? SOL_SOCKET) || negb (cmsg_type c =? SCM_RIGHTS)
             then (Done (-1), emit (EvStderr "invalid control message") s)
             else if cmsg_fd c =? -1
             then (Done (-1), emit (EvStderr "missing drm fd in socket request") s)
             else (Done (cmsg_fd c), s)
         end.
Proof.
  unfold open_reply, bind, modify, ret.
  destruct (r_ret r <? 0); [reflexivity |].
  destruct (r_cmsg r) as [c|]; [| reflexivity].
  destruct (negb (cmsg_level c =? SOL_SOCKET) || negb (cmsg_type c =? SCM_RIGHTS));
    [reflexivity |].
  destruct (cmsg_fd c =? -1); reflexivity.
Qed.

Lemma open_after_break path flags s r s1 :
  heap_exhausted s = false ->
  open_wait (inbox s) (requested path flags s) = (Done (LoopBreak r), s1) ->
  launcher_weston_launch_open path flags s = open_reply r s1.
Proof.
  intros Hoom Hw. rewrite open_unfold by assumption.
  unfold open_receive, bind. fold (requested path flags s).
  replace (inbox (requested path flags s)) with (inbox s) by (destruct s; reflexivity).
  rewrite Hw. reflexivity.
Qed.

(** C3: when the receive loop of [launcher_weston_launch_open] is left with
    an OPEN_REPLY, the call returns -1 without a word for a negative result
    code (the helper rejected the open); it returns -1 with a diagnostic on
    stderr for a non-negative result whose control message is missing, is
    not of level SOL_SOCKET or not of type SCM_RIGHTS, or carries the
    descriptor -1 (the descriptor is missing); it never returns 0 in these
    cases and always returns; and a value other than -1 is returned only
    for a non-negative result with a well-formed control message, and is
    then the attached descriptor. *)
Theorem open_reply_validated :
  forall (path : string) (flags : Z) (s s1 : session) (r : recv_result),
    heap_exhausted s = false ->
    open_wait (inbox s) (requested path flags s) = (Done (LoopBreak r), s1) ->
    (r_len r = sizeof_event /\ r_id r = WESTON_LAUNCHER_OPEN_REPLY)
    /\ (r_ret r < 0 ->
        launcher_weston_launch_open path flags s = (Done (-1), s1))
    /\ (0 <= r_ret r -> r_cmsg r = None ->
        launcher_weston_launch_open path flags s
        = (Done (-1), emit (EvStderr "invalid control message") s1))
    /\ (forall c, 0 <= r_ret r -> r_cmsg r = Some c ->
        cmsg_level c <> SOL_SOCKET \/ cmsg_type c <> SCM_RIGHTS ->
        launcher_weston_launch_open path flags s
        = (Done (-1), emit (EvStderr "invalid control message") s1))
    /\ (forall c, 0 <= r_ret r -> r_cmsg r = Some c ->
        cmsg_level c = SOL_SOCKET -> cmsg_type c = SCM_RIGHTS -> cmsg_fd c = -1 ->
        launcher_weston_launch_open path flags s
        = (Done (-1), emit (EvStderr "missing drm fd in socket request") s1))
    /\ (forall c, 0 <= r_ret r -> r_cmsg r = Some c ->
        cmsg_level c = SOL_SOCKET -> cmsg_type c = SCM_RIGHTS -> cmsg_fd c <> -1 ->
        launcher_weston_launch_open path flags s = (Done (cmsg_fd c), s1))
    /\ (exists v s', launcher_weston_launch_open path flags s = (Done v, s')
        /\ (v <> -1 ->
            0 <= r_ret r
            /\ exists c, r_cmsg r = Some c /\ cmsg_level c = SOL_SOCKET
                         /\ cmsg_type c = SCM_RIGHTS /\ cmsg_fd c = v)).
Proof.
  intros path flags s s1 r Hoom Hw.
  rewrite (open_after_break path flags s r s1 Hoom Hw), open_reply_eq.
  apply open_wait_effect in Hw. destruct Hw as (_ & _ & _ & Hbreak & _).
  destruct (Hbreak r eq_refl) as (L & I & _).
  split; [auto |].
  destruct (Z.ltb_spec (r_ret r) 0) as [Hneg|Hpos].
  { split; [reflexivity |]. repeat (split; [intros; lia |]).
    eexists _, _. split; [reflexivity |]. intros Hv. exfalso. apply Hv. reflexivity. }
  split; [intros; lia |].
  destruct (r_cmsg r) as [c|].
  2:{ split; [reflexivity |]. repeat (split; [intros; discriminate |]).
      eexists _, _. split; [reflexivity |]. intros Hv. exfalso. apply Hv. reflexivity. }
  split; [intros; discriminate |].
  destruct (Z.eqb_spec (cmsg_level c) SOL_SOCKET) as [El|El];
    destruct (Z.eqb_spec (cmsg_type c) SCM_RIGHTS) as [Et|Et]; simpl.
  2,3,4: split; [intros c' _ E _; reflexivity |];
    split; [intros c' _ E; inversion E; subst; intros; congruence |];
    split; [intros c' _ E; inversion E; subst; intros; congruence |];
    eexists _, _; (split; [reflexivity |]); intros Hv; exfalso; apply Hv; reflexivity.
  destruct (Z.eqb_spec (cmsg_fd c) (-1)) as [Ef|Ef].
  - split; [intros c' _ E; inversion E; subst; intros [?|?]; congruence |].
    split; [intros c' _ E; inversion E; subst; reflexivity |].
    split; [intros c' _ E; inversion E; subst; intros; congruence |].
    eexists _, _. split; [reflexivity |]. intros Hv. exfalso. apply Hv. reflexivity.
  - split; [intros c' _ E; inversion E; subst; intros [?|?]; congruence |].
    split; [intros c' _ E; inversion E; subst; intros; congruence |].
    split; [intros c' _ E; inversion E; subst; reflexivity |].
    eexists _, _. split; [reflexivity |]. intros _. split; [assumption |].
    exists c. auto.
Qed.

End Open_reply_checks.

Lemma open_reply_validated_witness :
  launcher_weston_launch_open "/dev/dri/card0" 2 session_reply_without_fd
  = (Done (-1),
     emit (EvStderr "invalid control message")
          (received (open_reply_msg 0 None) []
                    (requested "/dev/dri/card0" 2 session_reply_without_fd)))
  /\ launcher_weston_launch_open "/dev/dri/card0" 2 session_reply_7
     = (Done 7,
        received (open_reply_msg 0 (Some 7)) []
                 (requested "/dev/dri/card0" 2 session_reply_7)).
Proof.
  split.
  - refine (proj1 (proj2 (proj2 (open_reply_validated
              "/dev/dri/card0" 2 session_reply_without_fd _ (open_reply_msg 0 None)
              eq_refl eq_refl))) _ eq_refl).
    vm_compute. discriminate.
  - refine (proj1 (proj2 (proj2 (proj2 (proj2 (proj2 (open_reply_validated
              "/dev/dri/card0" 2 session_reply_7 _ (open_reply_msg 0 (Some 7))
              eq_refl eq_refl))))))
              (mkCmsg SOL_SOCKET SCM_RIGHTS 7) _ eq_refl eq_refl eq_refl _).
    + vm_compute. discriminate.
    + vm_compute. discriminate.
Defined.

Section Open_outcome.
Context {proto : weston_launch_h}.

Lemma open_result_cases path flags s v s' :
  launcher_weston_launch_open path flags s = (Done v, s') ->
  v = -1
  \/ exists r c,
       In r (inbox s) /\ r_len r = sizeof_event /\ r_id r = WESTON_LAUNCHER_OPEN_REPLY
       /\ 0 <= r_ret r /\ r_cmsg r = Some c
       /\ cmsg_level c = SOL_SOCKET /\ cmsg_type c = SCM_RIGHTS
       /\ cmsg_fd c = v /\ v <> -1.
Proof.
  destruct (heap_exhausted s) eqn:Hoom.
  { unfold launcher_weston_launch_open, bind, get, ret. simpl. rewrite Hoom.
    intros H. inversion H. left; reflexivity. }
  rewrite open_unfold by assumption. unfold open_receive, bind.
  fold (requested path flags s).
  replace (inbox (requested path flags s)) with (inbox s) by (destruct s; reflexivity).
  destruct (open_wait (inbox s) (requested path flags s)) as [o s1] eqn:Hw.
  apply open_wait_effect in Hw. destruct Hw as (_ & _ & _ & Hbreak & Hret).
  destruct o as [[r|c]| |]; try discriminate.
  - destruct (Hbreak r eq_refl) as (L & I & Hin).
    rewrite open_reply_eq.
    destruct (Z.ltb_spec (r_ret r) 0) as [Hneg|Hpos].
    { intros H; inversion H; left; reflexivity. }
    destruct (r_cmsg r) as [c|] eqn:Hc; [| intros H; inversion H; left; reflexivity].
    destruct (Z.eqb_spec (cmsg_level c) SOL_SOCKET) as [El|El];
      destruct (Z.eqb_spec (cmsg_type c) SCM_RIGHTS) as [Et|Et]; simpl;
      try (intros H; inversion H; left; reflexivity).
    destruct (Z.eqb_spec (cmsg_fd c) (-1)) as [Ef|Ef];
      intros H; inversion H; subst; [left; reflexivity |].
    right. exists r, c. repeat split; auto.
  - unfold ret. intros H; inversion H; subst. left. apply Hret. reflexivity.
Qed.

(** C4, as amended: a call of [launcher_weston_launch_open] that returns a
    value other than -1 (every failure exit returns -1) returns the
    descriptor attached to an OPEN_REPLY with a non-negative result, and at
    that moment [deferred_deactivate] either is what it was on entry, with no
    idle callback added (no DEACTIVATE was put off during the wait), or was 0
    on entry and is 1 on return, with exactly one idle callback added (one
    DEACTIVATE arrived before the OPEN_REPLY and is still to be
    delivered). *)
Theorem open_success_flag :
  forall (path : string) (flags : Z) (s s' : session) (v : Z),
    launcher_weston_launch_open path flags s = (Done v, s') ->
    v <> -1 ->
    (exists r c,
        In r (inbox s) /\ r_id r = WESTON_LAUNCHER_OPEN_REPLY /\ 0 <= r_ret r
        /\ r_cmsg r = Some c /\ cmsg_fd c = v)
    /\ ((deferred_deactivate (launcher s') = deferred_deactivate (launcher s)
         /\ idle s' = idle s
         /\ count is_deferral (trace s') = count is_deferral (trace s))
        \/ (deferred_deactivate (launcher s) = 0
            /\ deferred_deactivate (launcher s') = 1
            /\ idle s' = idle s ++ [IdleDeactivate]
            /\ count is_deferral (trace s') = S (count is_deferral (trace s)))).
Proof.
  intros path flags s s' v H Hv. split.
  - destruct (open_result_cases _ _ _ _ _ H) as [E|(r & c & Hin & _ & I & R & C & _ & _ & F & _)];
      [contradiction |].
    exists r, c. auto.
  - apply open_effect in H. destruct H as (_ & Hd & _). exact Hd.
Qed.

Lemma data_hangup mask s :
  ~ readable_only mask ->
  exists s',
    launcher_weston_launch_data (fd (launcher s)) mask s = (Exited (-1), s')
    /\ deferred_deactivate (launcher s') = deferred_deactivate (launcher s)
    /\ session_active s' = session_active s
    /\ inbox s' = inbox s
    /\ exists ext, trace s' = trace s ++ ext /\ calls ext = restore_calls s.
Proof.
  intros Hm. unfold launcher_weston_launch_data, readable_only in *.
  unfold truthy. destruct (Z.eqb_spec (Z.land mask (Z.lor WL_EVENT_HANGUP WL_EVENT_ERROR)) 0)
    as [E|E]; [contradiction |]. simpl.
  unfold bind, weston_log, modify, exit.
  destruct (restore_eq (emit (EvLog "launcher socket closed, exiting" []) s))
    as (s' & Hr & Hl & Ha & _ & Hi & _ & ext & Ht & Hc).
  rewrite Hr. exists s'. split; [reflexivity |].
  destruct s as [l a i rx tx ioc oom t]. simpl in *.
  rewrite Hl, Ha, Hi. repeat split.
  exists (EvLog "launcher socket closed, exiting" [] :: ext).
  split; [rewrite Ht, <- app_assoc; reflexivity | exact Hc].
Qed.

(** C10: a read of any length other than that of two integers or of one
    integer, the zero-length read of a peer hangup included, ends
    [launcher_weston_launch_open] with -1 through the unexpected-event
    branch, at the first read after the request as at any later turn of the
    loop; no call of the restoration sequence is made and the process goes
    on, whereas the socket callback run with a hangup or error bit runs the
    restoration sequence and exits with -1.  The loop is left through its
    [break] only on a read of exactly two integers carrying OPEN_REPLY, and
    an idle callback is scheduled only on a read of exactly one integer
    carrying DEACTIVATE. *)
Theorem open_other_length_is_failed_open :
  forall (path : string) (flags : Z) (s : session)
         (r : recv_result) (rest : list recv_result),
    heap_exhausted s = false ->
    inbox s = r :: rest ->
    interrupted (r_len r) (r_errno r) = false ->
    r_len r <> sizeof_event ->
    r_len r <> sizeof_int ->
    launcher_weston_launch_open path flags s
    = (Done (-1),
       emit (unexpected_event r) (received r rest (requested path flags s)))
    /\ open_receive s = (Done (-1), emit (unexpected_event r) (received r rest s))
    /\ count is_restore_call
             (trace (emit (unexpected_event r) (received r rest (requested path flags s))))
       = count is_restore_call (trace s)
    /\ (forall mask, ~ readable_only mask ->
        exists s',
          launcher_weston_launch_data (fd (launcher s)) mask s = (Exited (-1), s')
          /\ exists ext, trace s' = trace s ++ ext /\ calls ext = restore_calls s)
    /\ (forall q s0 s1 r1,
          open_wait q s0 = (Done (LoopBreak r1), s1) ->
          r_len r1 = sizeof_event /\ r_id r1 = WESTON_LAUNCHER_OPEN_REPLY)
    /\ (forall q s0 o s1,
          open_wait q s0 = (o, s1) -> idle s1 <> idle s0 ->
          exists r1, In r1 q /\ r_len r1 = sizeof_int
                     /\ r_id r1 = WESTON_LAUNCHER_DEACTIVATE).
Proof.
  intros path flags s r rest Hoom Hin Hint L8 L4.
  assert (Hstep : forall s0, inbox s0 = r :: rest ->
            open_receive s0 = (Done (-1), emit (unexpected_event r) (received r rest s0))).
  { intros s0 Hin0. rewrite (open_receive_step s0 r rest Hin0 Hint).
    destruct (Z.eqb_spec (r_len r) sizeof_event); [contradiction |].
    destruct (Z.eqb_spec (r_len r) sizeof_int); [contradiction |]. reflexivity. }
  split.
  { rewrite open_unfold by assumption. fold (requested path flags s).
    apply Hstep. destruct s; simpl in *; assumption. }
  split; [apply Hstep; assumption |].
  split.
  { unfold requested, sent, received. destruct s. simpl.
    rewrite !count_app. simpl. rewrite count_repeat_false by reflexivity. lia. }
  split.
  { intros mask Hm. destruct (data_hangup mask s Hm) as (s' & H & _ & _ & _ & Hext).
    exists s'. auto. }
  split.
  { intros q s0 s1 r1 Hw. apply open_wait_effect in Hw.
    destruct Hw as (_ & _ & _ & Hb & _). destruct (Hb r1 eq_refl) as (A & B & _). auto. }
  intros q. induction q as [|r0 q IH]; intros s0 o s1 Hw Hidle; simpl in Hw.
  { inversion Hw; subst. contradiction. }
  assert (Hrec : idle (received r0 q s0) = idle s0) by (destruct s0; reflexivity).
  destruct (interrupted (r_len r0) (r_errno r0)).
  { destruct (IH _ _ _ Hw) as (r1 & I1 & I2); [congruence |].
    exists r1. split; [right; exact I1 | exact I2]. }
  destruct ((r_len r0 =? sizeof_event) && (r_id r0 =? WESTON_LAUNCHER_OPEN_REPLY)).
  { inversion Hw; subst. contradiction. }
  destruct ((r_len r0 =? sizeof_int) && (r_id r0 =? WESTON_LAUNCHER_DEACTIVATE)
            && (deferred_deactivate (launcher s0) =? 0)) eqn:Hdea.
  - apply andb_true_iff in Hdea. destruct Hdea as [Hdea _].
    apply andb_true_iff in Hdea. destruct Hdea as [A B]. apply Z.eqb_eq in A, B.
    exists r0. split; [left; reflexivity | auto].
  - inversion Hw; subst. exfalso. apply Hidle. destruct s0; reflexivity.
Qed.

End Open_outcome.

(** C4, as stated, fails: the helper announces a VT switch and then answers
    the open with descriptor 8; the call returns 8 with the flag set. *)
Lemma open_returns_with_flag_set :
  fst (launcher_weston_launch_open "/dev/dri/card0" 2 session_deactivate_then_reply_8)
  = Done 8
  /\ deferred_deactivate
       (launcher (snd (launcher_weston_launch_open "/dev/dri/card0" 2
                         session_deactivate_then_reply_8))) = 1.
Proof. split; reflexivity. Qed.

Lemma open_success_flag_witness :
  deferred_deactivate (launcher session_deactivate_then_reply_8) = 0
  /\ deferred_deactivate
       (launcher (snd (launcher_weston_launch_open "/dev/dri/card0" 2
                         session_deactivate_then_reply_8))) = 1
  /\ idle (snd (launcher_weston_launch_open "/dev/dri/card0" 2
                  session_deactivate_then_reply_8)) = [IdleDeactivate].
Proof.
  assert (H : launcher_weston_launch_open "/dev/dri/card0" 2
                session_deactivate_then_reply_8
              = (Done 8, snd (launcher_weston_launch_open "/dev/dri/card0" 2
                                session_deactivate_then_reply_8)))
    by (vm_compute; reflexivity).
  assert (Hv : 8 <> -1) by discriminate.
  destruct (open_success_flag _ _ _ _ _ H Hv) as [_ [(E & _)|(E0 & E1 & E2 & _)]].
  - vm_compute in E. discriminate E.
  - repeat split; assumption.
Defined.

Lemma open_other_length_is_failed_open_witness :
  launcher_weston_launch_open "/dev/dri/card0" 2 session_peer_hangup
  = (Done (-1),
     emit (unexpected_event hangup_recv)
          (received hangup_recv [] (requested "/dev/dri/card0" 2 session_peer_hangup))).
Proof.
  refine (proj1 (open_other_length_is_failed_open
                   "/dev/dri/card0" 2 session_peer_hangup hangup_recv []
                   eq_refl eq_refl eq_refl _ _)); vm_compute; discriminate.
Defined.

(** ** Deferred deactivation across the event loop *)

Section Deferred_deactivation.
Context {proto : weston_launch_h}.

Lemma delivered_effect s :
  launcher (delivered s) = launcher s
  /\ idle (delivered s) = idle s
  /\ inbox (delivered s) = inbox s
  /\ session_active (delivered s) = false
  /\ count is_delivery (trace (delivered s)) = S (count is_delivery (trace s))
  /\ count is_deferral (trace (delivered s)) = count is_deferral (trace s)
  /\ count is_direct (trace (delivered s)) = count is_direct (trace s).
Proof.
  rewrite delivered_trace. unfold delivered, sent. destruct s. simpl.
  rewrite !count_app. simpl. rewrite !count_repeat_false by reflexivity.
  repeat split; lia.
Qed.

Lemma recv_loop_effect q :
  forall s o s',
    recv_loop q s = (o, s') ->
    launcher s' = launcher s /\ session_active s' = session_active s
    /\ idle s' = idle s
    /\ count is_delivery (trace s') = count is_delivery (trace s)
    /\ count is_deferral (trace s') = count is_deferral (trace s)
    /\ match o with
       | Done r =>
           count is_direct (trace s')
           = (count is_direct (trace s)
              + if (r_id r =? WESTON_LAUNCHER_DEACTIVATE)%Z then 1 else 0)%nat
       | Blocked => count is_direct (trace s') = count is_direct (trace s)
       | Exited _ => False
       end.
Proof.
  induction q as [|r q IH]; intros s o s' H; simpl in H.
  - inversion H; subst. repeat split.
  - destruct (interrupted (r_len r) (r_errno r)) eqn:Hi.
    + apply IH in H. destruct s as [l a i rx tx ioc oom t]. simpl in *.
      destruct H as (H1 & H2 & H3 & H4 & H5 & H6).
      rewrite !count_app in *. simpl in *. rewrite Hi in *. simpl in *.
      repeat split; try congruence; try lia.
      destruct o; try assumption; lia.
    + inversion H; subst. destruct s as [l a i rx tx ioc oom t]. simpl.
      rewrite !count_app. simpl. rewrite Hi. simpl.
      destruct (r_id r =? WESTON_LAUNCHER_DEACTIVATE); repeat split; lia.
Qed.

Lemma accounted_delivered s :
  deferred_deactivate (launcher s) = 1 ->
  (count is_delivery (trace s) + 1
   = count is_deferral (trace s) + count is_direct (trace s))%nat ->
  accounted (delivered (set_deferred_deactivate 0 s)).
Proof.
  unfold accounted. intros D Hc.
  destruct (delivered_effect (set_deferred_deactivate 0 s))
    as (El & Ei & _ & _ & C1 & C2 & C3).
  rewrite El, Ei, C1, C2, C3. destruct s as [l a i rx tx ioc oom t]. simpl in *.
  split; [left; reflexivity |]. split; [intros; lia |]. lia.
Qed.

Lemma accounted_flag s :
  accounted s ->
  (deferred_deactivate (launcher s) = 0 /\ truthy (deferred_deactivate (launcher s)) = false)
  \/ (deferred_deactivate (launcher s) = 1 /\ truthy (deferred_deactivate (launcher s)) = true).
Proof. intros ([E|E] & _); rewrite E; auto. Qed.

Lemma dispatch_idle_accounted s o s' :
  dispatch_idle s = (o, s') -> accounted s -> accounted s' /\ o = Done tt.
Proof.
  unfold dispatch_idle. destruct (idle s) as [|[] q] eqn:Hq.
  { intros H; inversion H; subst; auto. }
  rewrite idle_deactivate_eq. intros H Hacc.
  destruct (accounted_flag s Hacc) as [(D & T)|(D & T)];
    replace (launcher (set_idle q s)) with (launcher s) in H by (destruct s; reflexivity);
    rewrite T in H; inversion H; subst; (split; [| reflexivity]).
  - destruct Hacc as (Hd & Hi & Hc). unfold accounted.
    destruct s; simpl in *. split; [auto |]. split; [intros; lia | exact Hc].
  - destruct Hacc as (Hd & Hi & Hc). apply accounted_delivered.
    + destruct s; exact D.
    + rewrite D in Hc. destruct s; simpl in *. lia.
Qed.

Lemma read_notification_accounted s o s' :
  read_notification s = (o, s') ->
  deferred_deactivate (launcher s) = 0 -> accounted s -> accounted s'.
Proof.
  unfold read_notification, bind. intros H D (Hd & Hi & Hc).
  destruct (recv_loop (inbox s) s) as [x s1] eqn:Hr.
  apply recv_loop_effect in Hr. destruct Hr as (El & Ea & Ei & C1 & C2 & C3).
  assert (Hbase : forall n,
             count is_direct (trace s1) = (count is_direct (trace s) + n)%nat ->
             (count is_delivery (trace s1) + n
              = count is_deferral (trace s1) + count is_direct (trace s1))%nat).
  { intros n E. rewrite C1, C2, E. rewrite D in Hc. simpl in Hc. lia. }
  destruct x as [r| |]; [| contradiction |].
  2:{ inversion H; subst. unfold accounted. rewrite El, Ei, D.
      split; [auto |]. split; [intros; lia |]. simpl.
      specialize (Hbase 0%nat). rewrite Nat.add_0_r in Hbase. auto. }
  destruct (Z.eqb_spec (r_id r) WESTON_LAUNCHER_ACTIVATE) as [EA|EA].
  - destruct (Z.eqb_spec (r_id r) WESTON_LAUNCHER_DEACTIVATE) as [ED|ED].
    { exfalso. apply switch_cases_distinct. congruence. }
    unfold wl_signal_emit_session, bind, modify, get, ret in H. simpl in H.
    inversion H; subst. unfold accounted. destruct s1 as [l a i rx tx ioc oom t].
    simpl in *. rewrite !count_app. simpl. rewrite El, Ei, D.
    split; [auto |]. split; [intros; lia |]. simpl.
    specialize (Hbase 0%nat C3). lia.
  - destruct (Z.eqb_spec (r_id r) WESTON_LAUNCHER_DEACTIVATE) as [ED|ED].
    + rewrite handle_deactivate_delivered in H. unfold ret in H.
      inversion H; subst.
      destruct (delivered_effect s1) as (Fl & Fi & _ & _ & G1 & G2 & G3).
      unfold accounted. rewrite Fl, Fi, G1, G2, G3, El, Ei, D.
      split; [auto |]. split; [intros; lia |]. simpl.
      specialize (Hbase 1%nat C3). lia.
    + unfold weston_log, modify, ret in H. inversion H; subst.
      unfold accounted. destruct s1 as [l a i rx tx ioc oom t].
      simpl in *. rewrite !count_app. simpl. rewrite El, Ei, D.
      split; [auto |]. split; [intros; lia |]. simpl.
      specialize (Hbase 0%nat C3). lia.
Qed.

Lemma data_readable_eq mask s :
  readable_only mask ->
  launcher_weston_launch_data (fd (launcher s)) mask s
  = if truthy (deferred_deactivate (launcher s))
    then (Done 1, delivered (set_deferred_deactivate 0 s))
    else read_notification s.
Proof.
  intros Hm. unfold launcher_weston_launch_data. rewrite Hm. simpl.
  unfold bind, get, modify. simpl.
  destruct (truthy (deferred_deactivate (launcher s))); [| reflexivity].
  rewrite handle_deactivate_delivered. reflexivity.
Qed.

Lemma open_accounted path flags s o s' :
  launcher_weston_launch_open path flags s = (o, s') -> accounted s -> accounted s'.
Proof.
  intros H (Hd & Hi & Hc). apply open_effect in H.
  destruct H as (Hq & [(E1 & E2 & E3)|(E0 & E1 & E2 & E3)] & _);
    destruct Hq as (_ & _ & _ & _ & _ & _ & _ & _ & Q1 & Q2 & _);
    unfold accounted; rewrite Q1, Q2, E1, E2, E3.
  - auto.
  - split; [auto |]. split; [intros _; apply in_or_app; right; left; reflexivity |].
    rewrite E0 in Hc. simpl in *. lia.
Qed.

Lemma perform_accounted a s s' :
  perform a s = (Done tt, s') -> accounted s -> accounted s'.
Proof.
  destruct a as [path flags| |mask]; simpl.
  - unfold bind, ret.
    destruct (launcher_weston_launch_open path flags s) as [[v| |] s1] eqn:Ho;
      intros H; inversion H; subst.
    eapply open_accounted; eauto.
  - intros H Hacc. eapply dispatch_idle_accounted; eauto.
  - unfold bind, get, ret. simpl.
    destruct (launcher_weston_launch_data (fd (launcher s)) mask s) as [[v| |] s1] eqn:Hd;
      intros H; inversion H; subst. intros Hacc.
    destruct (Z.eq_dec (Z.land mask (Z.lor WL_EVENT_HANGUP WL_EVENT_ERROR)) 0) as [Hm|Hm].
    + rewrite (data_readable_eq mask s Hm) in Hd.
      destruct (accounted_flag s Hacc) as [(D & T)|(D & T)]; rewrite T in Hd.
      * eapply read_notification_accounted; eauto.
      * inversion Hd; subst. destruct Hacc as (_ & _ & Hc).
        apply accounted_delivered; [exact D |]. rewrite D in Hc. simpl in Hc. lia.
    + destruct (data_hangup mask s Hm) as (s2 & E & _). rewrite E in Hd. discriminate.
Qed.

Lemma run_accounted acts :
  forall s s', run acts s = (Done tt, s') -> accounted s -> accounted s'.
Proof.
  induction acts as [|a acts IH]; intros s s' H Hacc; simpl in H.
  - inversion H; subst; assumption.
  - unfold bind in H. destruct (perform a s) as [[[]| |] s1] eqn:Hp; try discriminate.
    eapply IH; [exact H |]. eapply perform_accounted; eauto.
Qed.

Lemma boot_accounted l active rx tx ioc oom :
  deferred_deactivate l = 0 -> accounted (boot l active rx tx ioc oom).
Proof.
  intros D. unfold accounted, boot. simpl. rewrite D. simpl.
  split; [auto |]. split; [intros; lia | reflexivity].
Qed.

Lemma drain_idle_clear n :
  forall s, List.length (idle s) = n -> deferred_deactivate (launcher s) = 0 ->
    run (repeat DispatchIdle n) s = (Done tt, set_idle [] s).
Proof.
  induction n as [|n IH]; intros s Hn D; simpl.
  - destruct s as [l a i rx tx ioc oom t]. simpl in *.
    destruct i; [reflexivity | discriminate].
  - unfold bind. unfold dispatch_idle.
    destruct (idle s) as [|[] q] eqn:Hq; [discriminate |].
    rewrite idle_deactivate_eq.
    replace (launcher (set_idle q s)) with (launcher s) by (destruct s; reflexivity).
    rewrite D. simpl. rewrite IH.
    + destruct s; reflexivity.
    + destruct s; simpl in *. congruence.
    + destruct s; exact D.
Qed.

Lemma drain_idle_set s :
  accounted s -> deferred_deactivate (launcher s) = 1 ->
  run (repeat DispatchIdle (List.length (idle s))) s
  = (Done tt, set_idle [] (delivered (set_deferred_deactivate 0 s))).
Proof.
  intros (_ & Hin & _) D. specialize (Hin D).
  destruct (idle s) as [|[] q] eqn:Hq; [contradiction |]. simpl.
  unfold bind, dispatch_idle. rewrite Hq, idle_deactivate_eq.
  replace (launcher (set_idle q s)) with (launcher s) by (destruct s; reflexivity).
  rewrite D. simpl. rewrite drain_idle_clear.
  - destruct s; reflexivity.
  - destruct s; reflexivity.
  - destruct s; reflexivity.
Qed.

(** C2: in every session reached from a fresh connection by calls of
    [launcher_weston_launch_open], idle dispatches and socket dispatches,
    [deferred_deactivate] is 0 or 1; it is 1 exactly while one DEACTIVATE
    put off by an open call has not been delivered, and then its idle
    callback is pending; every other accepted DEACTIVATE has been delivered
    exactly once.  An open call never delivers: it leaves [session_active]
    alone, emits no signal and sends no DEACTIVATE_DONE, so a delivery comes
    after the call has returned.  While the flag is set, the idle callback
    and the socket callback dispatched for readability (no hangup or error
    bit) do the same thing: clear the flag, clear [session_active], emit the
    signal and send DEACTIVATE_DONE, the socket callback returning 1 without
    reading the socket; in the session this leaves, the idle callback
    changes nothing and the socket callback goes straight to its ordinary
    read.  Running the idle callbacks pending on the event loop therefore
    delivers the deactivation, once. *)
Theorem deferred_deactivate_delivered_once :
  forall (acts : list action) (l : launcher_weston_launch) (active : bool)
         (rx : list recv_result) (tx : list send_result)
         (ioc : Z -> Z -> Z -> Z) (oom : bool) (s : session) (mask : Z),
    deferred_deactivate l = 0 ->
    run acts (boot l active rx tx ioc oom) = (Done tt, s) ->
    readable_only mask ->
    accounted s
    /\ (forall path flags,
          session_active (snd (launcher_weston_launch_open path flags s))
          = session_active s
          /\ count is_delivery (trace (snd (launcher_weston_launch_open path flags s)))
             = count is_delivery (trace s)
          /\ count is_done_send (trace (snd (launcher_weston_launch_open path flags s)))
             = count is_done_send (trace s))
    /\ (deferred_deactivate (launcher s) = 1 ->
          idle_deactivate s = (Done tt, delivered (set_deferred_deactivate 0 s))
          /\ launcher_weston_launch_data (fd (launcher s)) mask s
             = (Done 1, delivered (set_deferred_deactivate 0 s))
          /\ deferred_deactivate (launcher (delivered (set_deferred_deactivate 0 s))) = 0
          /\ session_active (delivered (set_deferred_deactivate 0 s)) = false
          /\ inbox (delivered (set_deferred_deactivate 0 s)) = inbox s
          /\ trace (delivered (set_deferred_deactivate 0 s))
             = trace s ++ EvSignal false
                 :: repeat (EvSend (fd (launcher s))
                                   (MsgInt WESTON_LAUNCHER_DEACTIVATE_DONE) sizeof_int)
                           (S (retries (sendq s)))
          /\ idle_deactivate (delivered (set_deferred_deactivate 0 s))
             = (Done tt, delivered (set_deferred_deactivate 0 s))
          /\ launcher_weston_launch_data (fd (launcher s)) mask
               (delivered (set_deferred_deactivate 0 s))
             = read_notification (delivered (set_deferred_deactivate 0 s))
          /\ run (repeat DispatchIdle (List.length (idle s))) s
             = (Done tt, set_idle [] (delivered (set_deferred_deactivate 0 s))))
    /\ (deferred_deactivate (launcher s) = 0 ->
          idle_deactivate s = (Done tt, s)
          /\ launcher_weston_launch_data (fd (launcher s)) mask s = read_notification s).
Proof.
  intros acts l active rx tx ioc oom s mask D0 Hrun Hm.
  assert (Hacc : accounted s)
    by (eapply run_accounted; [exact Hrun | apply boot_accounted; exact D0]).
  split; [exact Hacc |].
  split.
  { intros path flags.
    destruct (launcher_weston_launch_open path flags s) as [o s'] eqn:Ho.
    apply open_effect in Ho.
    destruct Ho as ((_ & _ & _ & _ & _ & Ha & _ & _ & Q1 & _ & Q3 & _) & _).
    simpl. auto. }
  split.
  - intros D.
    assert (Hclear : deferred_deactivate (launcher (delivered (set_deferred_deactivate 0 s))) = 0).
    { destruct (delivered_effect (set_deferred_deactivate 0 s)) as (El & _).
      rewrite El. destruct s; reflexivity. }
    assert (Hfd : fd (launcher (delivered (set_deferred_deactivate 0 s))) = fd (launcher s)).
    { destruct (delivered_effect (set_deferred_deactivate 0 s)) as (El & _).
      rewrite El. destruct s; reflexivity. }
    split; [rewrite idle_deactivate_eq, D; reflexivity |].
    split; [rewrite (data_readable_eq mask s Hm), D; reflexivity |].
    split; [exact Hclear |].
    destruct (delivered_effect (set_deferred_deactivate 0 s)) as (_ & _ & Ei & Ea & _).
    split; [exact Ea |].
    split; [rewrite Ei; destruct s; reflexivity |].
    split; [rewrite delivered_trace; destruct s; reflexivity |].
    split; [rewrite idle_deactivate_eq, Hclear; reflexivity |].
    split; [| apply drain_idle_set; assumption].
    rewrite <- Hfd.
    rewrite (data_readable_eq mask _ Hm), Hclear. reflexivity.
  - intros D.
    split; [rewrite idle_deactivate_eq, D; reflexivity |].
    rewrite (data_readable_eq mask s Hm), D. reflexivity.
Qed.

End Deferred_deactivation.

Lemma deferred_deactivate_delivered_once_witness :
  deferred_deactivate
    (launcher (snd (run [CallOpen "/dev/dri/card0" 2] session_deactivate_then_reply_8))) = 1
  /\ accounted (snd (run [CallOpen "/dev/dri/card0" 2] session_deactivate_then_reply_8))
  /\ launcher_weston_launch_data 5 WL_EVENT_READABLE
       (snd (run [CallOpen "/dev/dri/card0" 2] session_deactivate_then_reply_8))
     = (Done 1,
        delivered (set_deferred_deactivate 0
          (snd (run [CallOpen "/dev/dri/card0" 2] session_deactivate_then_reply_8)))).
Proof.
  assert (Hrun : run [CallOpen "/dev/dri/card0" 2]
                     (boot sample_launcher true
                           [deactivate_msg; open_reply_msg 0 (Some 8)] []
                           all_ioctls_succeed false)
                 = (Done tt,
                    snd (run [CallOpen "/dev/dri/card0" 2] session_deactivate_then_reply_8)))
    by (vm_compute; reflexivity).
  pose proof (deferred_deactivate_delivered_once
                [CallOpen "/dev/dri/card0" 2] sample_launcher true
                [deactivate_msg; open_reply_msg 0 (Some 8)] [] all_ioctls_succeed false
                _ WL_EVENT_READABLE eq_refl Hrun eq_refl) as (Hacc & _ & Hset & _).
  split; [reflexivity |]. split; [exact Hacc |].
  exact (proj1 (proj2 (Hset eq_refl))).
Defined.

(** ** Sending *)

Section Sending.
Context {proto : weston_launch_h}.

Lemma alike_refl s : alike s s.
Proof. unfold alike. auto. Qed.

Lemma open_wait_alike q :
  forall s1 s2, alike s1 s2 ->
    fst (open_wait q s1) = fst (open_wait q s2)
    /\ alike (snd (open_wait q s1)) (snd (open_wait q s2)).
Proof.
  induction q as [|r q IH]; intros s1 s2 Ha; simpl.
  - auto.
  - assert (H1 : alike (received r q s1) (received r q s2)).
    { destruct Ha as (A & B & C & D). unfold alike, received.
      destruct s1, s2; simpl in *. auto. }
    destruct Ha as (A & B & C & D).
    destruct (interrupted (r_len r) (r_errno r)); [apply IH; exact H1 |].
    destruct ((r_len r =? sizeof_event) && (r_id r =? WESTON_LAUNCHER_OPEN_REPLY));
      [simpl; auto |].
    rewrite A.
    destruct ((r_len r =? sizeof_int) && (r_id r =? WESTON_LAUNCHER_DEACTIVATE)
              && (deferred_deactivate (launcher s2) =? 0)).
    + apply IH. unfold alike, set_deferred_deactivate, wl_event_loop_add_idle, received.
      destruct s1, s2; simpl in *. subst. auto.
    + simpl. split; [reflexivity |]. unfold alike, received.
      destruct s1, s2; simpl in *. subst. auto.
Qed.

Lemma open_receive_alike s1 s2 :
  alike s1 s2 ->
  fst (open_receive s1) = fst (open_receive s2)
  /\ alike (snd (open_receive s1)) (snd (open_receive s2)).
Proof.
  intros Ha. unfold open_receive, bind.
  destruct Ha as (A & B & C & D). rewrite D.
  destruct (open_wait_alike (inbox s2) s1 s2) as [Hf Hs]; [unfold alike; auto |].
  destruct (open_wait (inbox s2) s1) as [o1 t1], (open_wait (inbox s2) s2) as [o2 t2].
  simpl in *. subst o2.
  destruct o1 as [[r|c]| |]; simpl; auto.
  rewrite !open_reply_eq.
  assert (Hlog : forall m, alike (emit (EvStderr m) t1) (emit (EvStderr m) t2)).
  { intros m. unfold alike in *. destruct t1, t2; simpl in *. exact Hs. }
  destruct (r_ret r <? 0); [simpl; auto |].
  destruct (r_cmsg r) as [c|]; [| simpl; auto].
  destruct (negb (cmsg_level c =? SOL_SOCKET) || negb (cmsg_type c =? SCM_RIGHTS));
    [simpl; auto |].
  destruct (cmsg_fd c =? -1); simpl; auto.
Qed.

(** C9, as amended: [launcher_weston_launch_send] calls [send] once more for
    every interrupted result and for no other, returning the first result
    that is not an interruption, a failure included.  Both callers drop that
    value: [handle_deactivate] returns nothing, and
    [launcher_weston_launch_open] goes on to its receive loop whatever the
    send did, so that what it returns, and the connection it leaves, depend
    only on what is received. *)
Theorem send_retried_on_eintr_result_dropped :
  forall (sockfd : Z) (buf : wire) (buflen : Z) (s : session)
         (path : string) (flags : Z) (q : list send_result),
    launcher_weston_launch_send sockfd buf buflen s
    = (Done (send_value buflen (sendq s)), sent sockfd buf buflen s)
    /\ trace (sent sockfd buf buflen s)
       = trace s ++ repeat (EvSend sockfd buf buflen) (S (retries (sendq s)))
    /\ (forall i r, sendq s !! i = Some r ->
          ((i < retries (sendq s))%nat -> interrupted (s_len r) (s_errno r) = true)
          /\ (i = retries (sendq s) ->
              interrupted (s_len r) (s_errno r) = false
              /\ send_value buflen (sendq s) = s_len r))
    /\ fst (handle_deactivate s) = Done tt
    /\ fst (launcher_weston_launch_open path flags (set_sendq q s))
       = fst (launcher_weston_launch_open path flags s)
    /\ alike (snd (launcher_weston_launch_open path flags (set_sendq q s)))
             (snd (launcher_weston_launch_open path flags s)).
Proof.
  intros sockfd buf buflen s path flags q.
  split; [apply launcher_weston_launch_send_sent |].
  split; [reflexivity |].
  split.
  { generalize (sendq s). clear. intros q.
    unfold send_value.
    induction q as [|r0 q IH]; intros i r Hi; [discriminate |]. simpl.
    destruct (interrupted (s_len r0) (s_errno r0)) eqn:E.
    - destruct i as [|i]; simpl in Hi.
      + inversion Hi; subst. split; [auto | intros; discriminate].
      + destruct (IH i r Hi) as [H1 H2]. split; [intros; apply H1; lia |].
        intros Hi'. apply H2. lia.
    - split; [intros; lia |]. intros ->. simpl in Hi. inversion Hi; subst. auto. }
  split; [rewrite handle_deactivate_delivered; reflexivity |].
  destruct (heap_exhausted s) eqn:Hoom.
  - unfold launcher_weston_launch_open, bind, get, ret. simpl. rewrite Hoom. simpl.
    split; [reflexivity |]. unfold alike. destruct s; simpl; auto.
  - assert (Hoom' : heap_exhausted (set_sendq q s) = false) by (destruct s; exact Hoom).
    rewrite !open_unfold by assumption.
    apply open_receive_alike. unfold alike, sent. destruct s; simpl; auto.
Qed.

End Sending.

(** C9, as stated, fails: the one [send] of the OPEN message fails with
    EPIPE and is not retried, yet the call goes on to read the reply and
    returns descriptor 7 to its caller; with nothing to read it waits for a
    reply instead of reporting the failure. *)
Lemma open_ignores_failed_send :
  fst (launcher_weston_launch_send 5 (MsgOpen WESTON_LAUNCHER_OPEN 2 "/dev/dri/card0") 23
         session_send_fails) = Done (-1)
  /\ fst (launcher_weston_launch_open "/dev/dri/card0" 2 session_send_fails) = Done 7
  /\ fst (launcher_weston_launch_open "/dev/dri/card0" 2 (set_inbox [] session_send_fails))
     = Blocked
  /\ count (fun e => match e with EvSend _ _ _ => true | _ => false end)
           (trace (snd (launcher_weston_launch_open "/dev/dri/card0" 2 session_send_fails)))
     = 1%nat.
Proof. repeat split; reflexivity. Qed.

(** ** Restoration and tear-down *)

Section Teardown.
Context {proto : weston_launch_h}.

(** C6, as amended: every call of [launcher_weston_launch_restore] returns
    to its caller, whatever the [ioctl]s answer, after making these calls in
    this order: (1) unmute the keyboard (KDSKBMUTE 0) and, only if that
    fails, set the keyboard mode to the cached value (KDSKBMODE); (2) set
    the display mode to text (KDSETMODE, KD_TEXT); (3) drop the device
    mastership on [drm_fd]; (4) set VT switching to automatic (VT_SETMODE,
    VT_AUTO).  Steps 2, 3 and 4 are made whether or not an earlier step
    failed; failures only add log lines; the connection is left as it
    was. *)
Theorem restore_sequence :
  forall s : session,
    exists s' ext,
      launcher_weston_launch_restore s = (Done tt, s')
      /\ launcher s' = launcher s
      /\ trace s' = trace s ++ ext
      /\ calls ext
         = [EvIoctl (tty (launcher s)) KDSKBMUTE 0]
           ++ (if truthy (ioctl_ret s (tty (launcher s)) KDSKBMUTE 0)
               then [EvIoctl (tty (launcher s)) KDSKBMODE (kb_mode (launcher s))]
               else [])
           ++ [EvIoctl (tty (launcher s)) KDSETMODE KD_TEXT;
               EvDropMaster (drm_fd (launcher s));
               EvIoctl (tty (launcher s)) VT_SETMODE VT_AUTO].
Proof.
  intros s. destruct (restore_eq s) as (s' & H & Hl & _ & _ & _ & _ & ext & Ht & Hc).
  exists s', ext. auto.
Qed.

Lemma restore_snd s :
  fst (launcher_weston_launch_restore s) = Done tt
  /\ launcher (snd (launcher_weston_launch_restore s)) = launcher s.
Proof.
  destruct (restore_eq s) as (s' & H & Hl & _). rewrite H. simpl. auto.
Qed.

(** The two branches of [launcher_weston_launch_destroy], on any session:
    with [fd] other than -1 the socket is closed and its event source
    removed, with no call of the restoration sequence; with [fd] equal to -1
    the restoration sequence runs first.  What follows in both is the
    closing of the terminal descriptor (when [tty >= 0]) and the freeing of
    the object. *)
Lemma destroy_branches :
  forall s : session,
    fst (launcher_weston_launch_destroy s) = Done tt
    /\ (fd (launcher s) <> -1 ->
        trace (snd (launcher_weston_launch_destroy s))
        = trace s
          ++ [EvClose (fd (launcher s)); EvSourceRemove (source (launcher s))]
          ++ close_tty_calls (launcher s) ++ [EvFree]
        /\ count is_restore_call (trace (snd (launcher_weston_launch_destroy s)))
           = count is_restore_call (trace s))
    /\ (fd (launcher s) = -1 ->
        trace (snd (launcher_weston_launch_destroy s))
        = trace (snd (launcher_weston_launch_restore s))
          ++ close_tty_calls (launcher s) ++ [EvFree]
        /\ exists ext,
             trace (snd (launcher_weston_launch_restore s)) = trace s ++ ext
             /\ calls ext = restore_calls s)
    /\ (0 <= tty (launcher s) -> close_tty_calls (launcher s) = [EvClose (tty (launcher s))]).
Proof.
  intros s. unfold launcher_weston_launch_destroy, bind, get, when, modify, ret,
    close_tty_calls. simpl.
  destruct (Z.eqb_spec (fd (launcher s)) (-1)) as [E|E]; simpl.
  - destruct (restore_eq s) as (s' & H & Hl & _ & _ & _ & _ & ext & Ht & Hc).
    rewrite H. simpl.
    assert (Hfst : fst (if 0 <=? tty (launcher s)
                        then (Done tt, emit EvFree (emit (EvClose (tty (launcher s))) s'))
                        else (Done tt, emit EvFree s')) = Done tt)
      by (destruct (0 <=? tty (launcher s)); reflexivity).
    split; [destruct (0 <=? tty (launcher s)); reflexivity |].
    split; [intros; contradiction |].
    split.
    + intros _. split.
      * destruct (0 <=? tty (launcher s)); destruct s'; simpl;
          rewrite <- ?app_assoc; reflexivity.
      * exists ext. auto.
    + intros Ht0. destruct (Z.leb_spec 0 (tty (launcher s))); [reflexivity | lia].
  - split; [destruct (0 <=? tty (launcher s)); reflexivity |].
    split.
    + intros _. destruct (0 <=? tty (launcher s)); destruct s; simpl;
        rewrite <- ?app_assoc; simpl; rewrite ?count_app; simpl; split;
        try reflexivity; lia.
    + split; [intros; contradiction |].
      intros Ht0. destruct (Z.leb_spec 0 (tty (launcher s))); [reflexivity | lia].
Qed.

End Teardown.

(** C6, as stated, fails: when every [ioctl] succeeds, the restoration
    sequence makes four calls and none of them is the KDSKBMODE request that
    would restore the keyboard mode to the cached value. *)
Lemma restore_skips_kb_mode_when_unmute_succeeds :
  calls (trace (snd (launcher_weston_launch_restore session_quiet)))
  = [EvIoctl 6 KDSKBMUTE 0; EvIoctl 6 KDSETMODE KD_TEXT;
     EvDropMaster (-1); EvIoctl 6 VT_SETMODE VT_AUTO]
  /\ count is_kdskbmode (trace (snd (launcher_weston_launch_restore session_quiet))) = 0%nat.
Proof. split; reflexivity. Qed.

(** ** Connecting *)

Section Connecting.
Context {helpers : string_helpers_h}.

Lemma get_fd_unusable name p :
  slot_unusable name p ->
  exists t, launcher_weston_environment_get_fd name p = (-1, p, t).
Proof.
  unfold slot_unusable, launcher_weston_environment_get_fd, fcntl_getfd.
  destruct (environ p !! name) as [e|]; [| eauto].
  destruct (safe_strtoint e) as [fildes|]; [| eauto].
  intros ->. simpl. eauto.
Qed.

Lemma get_fd_usable name p e fildes flags :
  environ p !! name = Some e -> safe_strtoint e = Some fildes ->
  fdflags p !! fildes = Some flags -> flags <> -1 ->
  launcher_weston_environment_get_fd name p
  = (fildes,
     mkProcess (delete name (environ p))
               (<[fildes := Z.lor flags FD_CLOEXEC]> (fdflags p)),
     []).
Proof.
  intros He Hp Hf Hflags.
  unfold launcher_weston_environment_get_fd, fcntl_getfd. rewrite He, Hp, Hf. simpl.
  destruct (Z.eqb_spec flags (-1)); [contradiction | reflexivity].
Qed.

Lemma get_fd_trace name p :
  count is_close (snd (launcher_weston_environment_get_fd name p)) = 0%nat
  /\ count is_free (snd (launcher_weston_environment_get_fd name p)) = 0%nat.
Proof.
  unfold launcher_weston_environment_get_fd.
  destruct (environ p !! name) as [e|]; [| auto].
  destruct (safe_strtoint e) as [fildes|]; [| auto].
  destruct (fcntl_getfd p fildes =? -1); auto.
Qed.

(** C5, as amended: [launcher_weston_launch_connect] fails with -1 when the
    socket slot of the environment is not set, does not parse, or names a
    descriptor that is not open, leaving the process as it was.  Whenever it
    fails (a return value other than 0) it stores nothing through [out] and,
    if the object was allocated, frees it exactly once, so the caller never
    sees a partly built connection.  An unusable terminal slot is not a
    failure: with a usable socket slot and a registered event source the
    call returns 0 and the connection it stores has -1 for its terminal
    descriptor. *)
Theorem connect_fails_on_socket_slot_only :
  forall (malloc_ok : bool) (src tty_arg : Z) (seat_id : string) (sync_drm : bool)
         (p : process),
    (malloc_ok = true -> slot_unusable "WESTON_LAUNCHER_SOCK" p ->
       c_ret (launcher_weston_launch_connect malloc_ok src tty_arg seat_id sync_drm p) = -1
       /\ c_process (launcher_weston_launch_connect malloc_ok src tty_arg seat_id sync_drm p)
          = p)
    /\ (c_ret (launcher_weston_launch_connect malloc_ok src tty_arg seat_id sync_drm p) <> 0 ->
        c_out (launcher_weston_launch_connect malloc_ok src tty_arg seat_id sync_drm p) = None
        /\ count is_free
             (c_trace (launcher_weston_launch_connect malloc_ok src tty_arg seat_id sync_drm p))
           = (if malloc_ok then 1 else 0)%nat)
    /\ (forall e fildes flags,
          malloc_ok = true -> src <> 0 ->
          environ p !! "WESTON_LAUNCHER_SOCK" = Some e ->
          safe_strtoint e = Some fildes ->
          fdflags p !! fildes = Some flags -> flags <> -1 -> fildes <> -1 ->
          slot_unusable "WESTON_TTY_FD" p ->
          c_ret (launcher_weston_launch_connect malloc_ok src tty_arg seat_id sync_drm p) = 0
          /\ c_out (launcher_weston_launch_connect malloc_ok src tty_arg seat_id sync_drm p)
             = Some (mkLauncher fildes src K_UNICODE (-1) (-1) 0)).
Proof.
  intros malloc_ok src tty_arg seat_id sync_drm p.
  unfold launcher_weston_launch_connect.
  split.
  { intros -> Hbad. simpl. destruct (get_fd_unusable _ _ Hbad) as (t & ->). simpl. auto. }
  split.
  { destruct malloc_ok; simpl; [| auto].
    pose proof (get_fd_trace "WESTON_LAUNCHER_SOCK" p) as [_ F1].
    destruct (launcher_weston_environment_get_fd "WESTON_LAUNCHER_SOCK" p)
      as [[sock p1] t1]. simpl in F1.
    destruct (sock =? -1).
    { simpl. intros _. rewrite count_app, F1. auto. }
    pose proof (get_fd_trace "WESTON_TTY_FD" p1) as [_ F2].
    destruct (launcher_weston_environment_get_fd "WESTON_TTY_FD" p1)
      as [[term p2] t2]. simpl in F2.
    destruct (src =? 0); simpl; [| intros H; exfalso; apply H; reflexivity].
    intros _. rewrite !count_app, F1, F2. auto. }
  intros e fildes flags -> Hsrc He Hp Hf Hflags Hfd Hbad. simpl.
  rewrite (get_fd_usable _ _ _ _ _ He Hp Hf Hflags).
  destruct (Z.eqb_spec fildes (-1)); [contradiction |].
  assert (Hbad' : slot_unusable "WESTON_TTY_FD"
                    (mkProcess (delete "WESTON_LAUNCHER_SOCK" (environ p))
                               (<[fildes := Z.lor flags FD_CLOEXEC]> (fdflags p)))).
  { unfold slot_unusable in *. simpl.
    rewrite lookup_delete_ne by discriminate.
    destruct (environ p !! "WESTON_TTY_FD") as [e'|]; [| exact I].
    destruct (safe_strtoint e') as [f'|]; [| exact I].
    rewrite lookup_insert_ne; [exact Hbad | congruence]. }
  destruct (get_fd_unusable _ _ Hbad') as (t & ->).
  destruct (Z.eqb_spec src 0); [contradiction |]. simpl. auto.
Qed.

Lemma connect_launcher_fresh malloc_ok src tty_arg seat_id sync_drm p l :
  c_out (launcher_weston_launch_connect malloc_ok src tty_arg seat_id sync_drm p) = Some l ->
  drm_fd l = -1 /\ deferred_deactivate l = 0 /\ kb_mode l = K_UNICODE /\ fd l <> -1.
Proof.
  unfold launcher_weston_launch_connect.
  destruct malloc_ok; simpl; [| discriminate].
  destruct (launcher_weston_environment_get_fd "WESTON_LAUNCHER_SOCK" p) as [[sock p1] t1].
  destruct (Z.eqb_spec sock (-1)); [discriminate |].
  destruct (launcher_weston_environment_get_fd "WESTON_TTY_FD" p1) as [[term p2] t2].
  destruct (src =? 0); simpl; [discriminate |].
  intros H. inversion H; subst. simpl. auto.
Qed.

End Connecting.

(** C5, as stated, fails: with the terminal variable not set at all the
    call succeeds and stores a connection whose terminal descriptor is -1;
    and when the event source cannot be registered the call fails without
    closing a descriptor, both staying open in the process. *)
Lemma connect_succeeds_without_terminal :
  c_ret (launcher_weston_launch_connect true 1 7 "seat0" false process_without_tty) = 0
  /\ c_out (launcher_weston_launch_connect true 1 7 "seat0" false process_without_tty)
     = Some (mkLauncher 5 1 K_UNICODE (-1) (-1) 0)
  /\ c_ret (launcher_weston_launch_connect true 0 7 "seat0" false sample_process)
     = - ENOMEM
  /\ count is_close
       (c_trace (launcher_weston_launch_connect true 0 7 "seat0" false sample_process))
     = 0%nat
  /\ fdflags (c_process (launcher_weston_launch_connect true 0 7 "seat0" false
                           sample_process)) !! 5 = Some FD_CLOEXEC
  /\ fdflags (c_process (launcher_weston_launch_connect true 0 7 "seat0" false
                           sample_process)) !! 6 = Some FD_CLOEXEC.
Proof. repeat split; vm_compute; reflexivity. Qed.

Lemma connect_fails_on_socket_slot_only_witness :
  c_ret (launcher_weston_launch_connect true 1 7 "seat0" false process_bad_sock) = -1
  /\ c_out (launcher_weston_launch_connect true 1 7 "seat0" false process_bad_sock) = None
  /\ c_ret (launcher_weston_launch_connect true 1 7 "seat0" false process_without_tty) = 0.
Proof.
  pose proof (connect_fails_on_socket_slot_only true 1 7 "seat0" false process_bad_sock)
    as (H1 & H2 & _).
  pose proof (connect_fails_on_socket_slot_only true 1 7 "seat0" false process_without_tty)
    as (_ & _ & H3).
  assert (Hbad : slot_unusable "WESTON_LAUNCHER_SOCK" process_bad_sock)
    by (vm_compute; exact I).
  destruct (H1 eq_refl Hbad) as [R _].
  split; [exact R |]. split.
  - apply H2. rewrite R. discriminate.
  - refine (proj1 (H3 "5" 5 0 eq_refl _ _ _ _ _ _ _));
      try (vm_compute; first [reflexivity | discriminate | exact I]).
Defined.

(** C7 on the code: a fresh connection has [drm_fd] -1; an open call that
    returns descriptor 7 leaves it at -1, and the restoration sequence run
    afterwards drops mastership on -1. *)
Lemma open_does_not_record_device_fd :
  c_out (launcher_weston_launch_connect true 1 7 "seat0" false sample_process)
  = Some sample_launcher
  /\ fst (launcher_weston_launch_open "/dev/dri/card0" 2 session_reply_7) = Done 7
  /\ drm_fd (launcher (snd (launcher_weston_launch_open "/dev/dri/card0" 2 session_reply_7)))
     = -1
  /\ calls (drop 2 (trace (snd (launcher_weston_launch_restore
                                  (snd (launcher_weston_launch_open "/dev/dri/card0" 2
                                          session_reply_7))))))
     = [EvIoctl 6 KDSKBMUTE 0; EvIoctl 6 KDSETMODE KD_TEXT;
        EvDropMaster (-1); EvIoctl 6 VT_SETMODE VT_AUTO].
Proof. repeat split; vm_compute; reflexivity. Qed.

Lemma open_keeps_drm_fd `{weston_launch_h} (path : string) (flags : Z) (s : session) :
  drm_fd (launcher (snd (launcher_weston_launch_open path flags s)))
  = drm_fd (launcher s).
Proof.
  destruct (launcher_weston_launch_open path flags s) as [o s'] eqn:Ho.
  apply open_effect in Ho. destruct Ho as ((_ & _ & _ & _ & Hd & _) & _).
  exact Hd.
Qed.

(** ** The end-to-end scenarios *)

(** The helper returns result 0 with descriptor 7 attached: the call
    returns 7. *)
Example scenario_plain_open :
  fst (launcher_weston_launch_open "/dev/dri/card0" 2 session_reply_7) = Done 7.
Proof. reflexivity. Qed.

(** An interrupted read is tried again and changes nothing else. *)
Example scenario_interrupted_read :
  fst (launcher_weston_launch_open "/dev/dri/card0" 2
         (set_inbox [eintr_recv; open_reply_msg 0 (Some 7)] session_reply_7)) = Done 7.
Proof. reflexivity. Qed.

(** The helper first emits DEACTIVATE, then the reply with descriptor 8:
    the call returns 8, and the idle callbacks run afterwards deliver the
    deactivation once; further dispatches find nothing to do. *)
Example scenario_deferred_deactivation :
  count is_delivery
    (trace (snd (run [CallOpen "/dev/dri/card0" 2] session_deactivate_then_reply_8)))
  = 0%nat
  /\ count is_delivery
       (trace (snd (run [CallOpen "/dev/dri/card0" 2; DispatchIdle; DispatchIdle]
                        session_deactivate_then_reply_8)))
     = 1%nat
  /\ session_active
       (snd (run [CallOpen "/dev/dri/card0" 2; DispatchIdle]
                 session_deactivate_then_reply_8)) = false
  /\ count is_delivery
       (trace (snd (run [CallOpen "/dev/dri/card0" 2;
                         DispatchData WL_EVENT_READABLE; DispatchIdle]
                        session_deactivate_then_reply_8)))
     = 1%nat.
Proof. repeat split; reflexivity. Qed.

(** The helper disappears while the compositor is idle: the restoration
    sequence runs and the process exits with a nonzero status. *)
Example scenario_hangup_while_idle :
  fst (launcher_weston_launch_data 5 WL_EVENT_HANGUP session_quiet) = Exited (-1)
  /\ calls (trace (snd (launcher_weston_launch_data 5 WL_EVENT_HANGUP session_quiet)))
     = [EvIoctl 6 KDSKBMUTE 0; EvIoctl 6 KDSETMODE KD_TEXT;
        EvDropMaster (-1); EvIoctl 6 VT_SETMODE VT_AUTO].
Proof. split; reflexivity. Qed.

(** With the flag set, a socket event carrying the hangup bit restores and
    exits before the flag is looked at. *)
Example scenario_hangup_with_flag_set :
  fst (run [CallOpen "/dev/dri/card0" 2; DispatchData WL_EVENT_HANGUP]
           session_deactivate_then_reply_8) = Exited (-1)
  /\ count is_delivery
       (trace (snd (run [CallOpen "/dev/dri/card0" 2; DispatchData WL_EVENT_HANGUP]
                        session_deactivate_then_reply_8)))
     = 0%nat.
Proof. split; reflexivity. Qed.

(** ** Further properties: how a session evolves *)

Section Evolution.
Context {proto : weston_launch_h}.

Lemma replay_app a t u : replay a (t ++ u) = replay (replay a t) u.
Proof.
  revert a. induction t as [|e t IH]; intros a; simpl; [reflexivity |].
  destruct e; apply IH.
Qed.

Lemma replay_repeat_send a sockfd buf n k :
  replay a (repeat (EvSend sockfd buf n) k) = a.
Proof. induction k; simpl; auto. Qed.

Lemma evolves_refl s : evolves s s.
Proof.
  exists []. rewrite app_nil_r. simpl. repeat split; auto.
Qed.

Lemma evolves_trans s1 s2 s3 : evolves s1 s2 -> evolves s2 s3 -> evolves s1 s3.
Proof.
  intros (e1 & T1 & A1 & L1 & C1) (e2 & T2 & A2 & L2 & C2).
  exists (e1 ++ e2). rewrite T2, T1, <- app_assoc, A2, A1, replay_app, !count_app.
  split; [reflexivity |]. split; [reflexivity |]. split; [lia |].
  intros H. destruct (C1 H) as [H2 E1]. destruct (C2 H2) as [H3 E2].
  split; [exact H3 | lia].
Qed.

Lemma evolves_same s s' :
  trace s' = trace s -> session_active s' = session_active s ->
  sendq s' = sendq s -> evolves s s'.
Proof.
  intros T A Q. exists []. rewrite app_nil_r, T, A, Q. simpl. repeat split; auto.
Qed.

Lemma evolves_emit e s :
  replay (session_active s) [e] = session_active s ->
  is_delivery e = false -> is_done_send e = false ->
  evolves s (emit e s).
Proof.
  intros R D S. exists [e]. destruct s. simpl in *. rewrite R, D, S.
  repeat split; auto.
Qed.

Lemma retries_calm q : Forall calm q -> retries q = 0%nat.
Proof. intros [|r q' H _]; simpl; [reflexivity |]. rewrite H. reflexivity. Qed.

Lemma evolves_sent_open sockfd opcode flags path n s :
  evolves s (sent sockfd (MsgOpen opcode flags path) n s).
Proof.
  exists (repeat (EvSend sockfd (MsgOpen opcode flags path) n) (S (retries (sendq s)))).
  unfold sent. destruct s as [l a i rx tx ioc oom t]. cbn [trace session_active sendq].
  rewrite replay_repeat_send, !count_repeat_false by reflexivity.
  repeat split; auto. apply Forall_drop. assumption.
Qed.

Lemma evolves_delivered s : evolves s (delivered s).
Proof.
  exists (EvSignal false
          :: repeat (EvSend (fd (launcher s)) (MsgInt WESTON_LAUNCHER_DEACTIVATE_DONE)
                            sizeof_int) (S (retries (sendq s)))).
  split; [apply delivered_trace |].
  assert (Hdone : is_done_send (EvSend (fd (launcher s))
                    (MsgInt WESTON_LAUNCHER_DEACTIVATE_DONE) sizeof_int) = true)
    by (simpl; apply Z.eqb_refl).
  cbn [count replay is_delivery is_done_send].
  rewrite replay_repeat_send, count_repeat_false, count_repeat_true by auto.
  split; [destruct s; reflexivity |]. split; [lia |].
  intros H. rewrite (retries_calm _ H). split; [| reflexivity].
  unfold delivered, sent. destruct s; simpl in *. apply Forall_drop. assumption.
Qed.

Lemma evolves_activate s :
  evolves s (emit (EvSignal true) (set_session_active true s)).
Proof.
  exists [EvSignal true]. destruct s. simpl. repeat split; auto.
Qed.

Lemma evolves_received r rest s : evolves s (received r rest s).
Proof.
  unfold received. eapply evolves_trans; [| apply evolves_emit; reflexivity].
  apply evolves_same; destruct s; reflexivity.
Qed.

Lemma open_wait_evolves q : forall s, evolves s (snd (open_wait q s)).
Proof.
  induction q as [|r q IH]; intros s; simpl; [apply evolves_refl |].
  pose proof (evolves_received r q s) as H1.
  destruct (interrupted (r_len r) (r_errno r));
    [eapply evolves_trans; [exact H1 | apply IH] |].
  destruct ((r_len r =? sizeof_event) && (r_id r =? WESTON_LAUNCHER_OPEN_REPLY));
    [exact H1 |].
  destruct ((r_len r =? sizeof_int) && (r_id r =? WESTON_LAUNCHER_DEACTIVATE)
            && (deferred_deactivate (launcher s) =? 0)).
  - eapply evolves_trans; [exact H1 |]. eapply evolves_trans; [| apply IH].
    unfold set_deferred_deactivate, wl_event_loop_add_idle.
    eapply evolves_trans;
      [apply (evolves_emit (EvAddIdle IdleDeactivate)); reflexivity |].
    apply evolves_same; destruct s; reflexivity.
  - simpl. eapply evolves_trans; [exact H1 |]. apply evolves_emit; reflexivity.
Qed.

Lemma open_reply_evolves r s : evolves s (snd (open_reply r s)).
Proof.
  rewrite open_reply_eq.
  destruct (r_ret r <? 0); [apply evolves_refl |].
  destruct (r_cmsg r) as [c|]; [| apply evolves_emit; reflexivity].
  destruct (negb (cmsg_level c =? SOL_SOCKET) || negb (cmsg_type c =? SCM_RIGHTS));
    [apply evolves_emit; reflexivity |].
  destruct (cmsg_fd c =? -1); [apply evolves_emit; reflexivity | apply evolves_refl].
Qed.

Lemma open_receive_evolves s : evolves s (snd (open_receive s)).
Proof.
  unfold open_receive, bind.
  pose proof (open_wait_evolves (inbox s) s) as H.
  destruct (open_wait (inbox s) s) as [[[r|c]| |] s1]; simpl in *; try exact H.
  eapply evolves_trans; [exact H | apply open_reply_evolves].
Qed.

Lemma open_evolves path flags s :
  evolves s (snd (launcher_weston_launch_open path flags s)).
Proof.
  destruct (heap_exhausted s) eqn:Hoom.
  - unfold launcher_weston_launch_open, bind, get, ret. simpl. rewrite Hoom.
    apply evolves_refl.
  - rewrite open_unfold by assumption.
    eapply evolves_trans; [apply evolves_sent_open | apply open_receive_evolves].
Qed.

Lemma recv_loop_evolves q : forall s, evolves s (snd (recv_loop q s)).
Proof.
  induction q as [|r q IH]; intros s; simpl; [apply evolves_refl |].
  assert (H1 : evolves s (emit (EvRecv (fd (launcher s)) r) (set_inbox q s))).
  { eapply evolves_trans; [| apply evolves_emit; reflexivity].
    apply evolves_same; destruct s; reflexivity. }
  destruct (interrupted (r_len r) (r_errno r)); [| exact H1].
  eapply evolves_trans; [exact H1 | apply IH].
Qed.

Lemma read_notification_evolves s : evolves s (snd (read_notification s)).
Proof.
  unfold read_notification, bind.
  pose proof (recv_loop_evolves (inbox s) s) as H.
  destruct (recv_loop (inbox s) s) as [[r| |] s1]; simpl in *; try exact H.
  eapply evolves_trans; [exact H |].
  destruct (r_id r =? WESTON_LAUNCHER_ACTIVATE).
  - unfold wl_signal_emit_session, bind, modify, get, ret. simpl.
    apply evolves_activate.
  - destruct (r_id r =? WESTON_LAUNCHER_DEACTIVATE).
    + rewrite handle_deactivate_delivered. simpl. apply evolves_delivered.
    + unfold weston_log, modify, ret. simpl. apply evolves_emit; reflexivity.
Qed.

Lemma replay_calls a t : replay a (calls t) = replay a t.
Proof.
  revert a. induction t as [|e t IH]; intros a; simpl; [reflexivity |].
  destruct e; simpl; auto.
Qed.

Lemma count_calls p t :
  (forall fmt args, p (EvLog fmt args) = false) ->
  (forall m, p (EvStderr m) = false) ->
  count p (calls t) = count p t.
Proof.
  intros H1 H2. induction t as [|e t IH]; simpl; [reflexivity |].
  destruct e; simpl; rewrite ?IH, ?H1, ?H2; reflexivity.
Qed.

Lemma restore_evolves s : evolves s (snd (launcher_weston_launch_restore s)).
Proof.
  destruct (restore_eq s) as (s' & H & _ & A & _ & _ & Q & ext & T & C).
  rewrite H. simpl. exists ext.
  assert (R : replay (session_active s) ext = session_active s).
  { rewrite <- replay_calls, C. unfold restore_calls.
    destruct (truthy _); reflexivity. }
  assert (D : count is_delivery ext = 0%nat).
  { rewrite <- (count_calls is_delivery ext), C by reflexivity.
    unfold restore_calls. destruct (truthy _); reflexivity. }
  assert (S : count is_done_send ext = 0%nat).
  { rewrite <- (count_calls is_done_send ext), C by reflexivity.
    unfold restore_calls. destruct (truthy _); reflexivity. }
  rewrite R, D, S, Q. repeat split; auto.
Qed.

Lemma data_evolves fildes mask s :
  evolves s (snd (launcher_weston_launch_data fildes mask s)).
Proof.
  unfold launcher_weston_launch_data.
  destruct (truthy (Z.land mask (Z.lor WL_EVENT_HANGUP WL_EVENT_ERROR))).
  - unfold bind, weston_log, modify, exit. simpl.
    pose proof (restore_evolves (emit (EvLog "launcher socket closed, exiting" []) s)) as H.
    destruct (launcher_weston_launch_restore _) as [[[]| |] s1]; simpl in *;
      (apply (evolves_trans _ (emit (EvLog "launcher socket closed, exiting" []) s));
       [apply evolves_emit; reflexivity | exact H]).
  - unfold bind, get, modify. simpl.
    destruct (truthy (deferred_deactivate (launcher s))).
    + rewrite handle_deactivate_delivered. simpl.
      eapply evolves_trans; [| apply evolves_delivered].
      apply evolves_same; destruct s; reflexivity.
    + apply read_notification_evolves.
Qed.

Lemma dispatch_idle_evolves s : evolves s (snd (dispatch_idle s)).
Proof.
  unfold dispatch_idle. destruct (idle s) as [|[] q]; [apply evolves_refl |].
  rewrite idle_deactivate_eq.
  assert (H0 : evolves s (set_idle q s)) by (apply evolves_same; destruct s; reflexivity).
  destruct (truthy _); simpl; [| exact H0].
  eapply evolves_trans; [exact H0 |].
  eapply evolves_trans; [| apply evolves_delivered].
  apply evolves_same; destruct s; reflexivity.
Qed.

Lemma perform_evolves a s : evolves s (snd (perform a s)).
Proof.
  destruct a as [path flags| |mask]; simpl.
  - unfold bind, ret. pose proof (open_evolves path flags s) as H.
    destruct (launcher_weston_launch_open path flags s) as [[v| |] s1]; exact H.
  - apply dispatch_idle_evolves.
  - unfold bind, get, ret. simpl.
    pose proof (data_evolves (fd (launcher s)) mask s) as H.
    destruct (launcher_weston_launch_data (fd (launcher s)) mask s) as [[v| |] s1]; exact H.
Qed.

Lemma run_evolves acts : forall s, evolves s (snd (run acts s)).
Proof.
  induction acts as [|a acts IH]; intros s; simpl; [apply evolves_refl |].
  unfold bind. pose proof (perform_evolves a s) as H.
  destruct (perform a s) as [[[]| |] s1]; simpl in *; try exact H.
  eapply evolves_trans; [exact H | apply IH].
Qed.

End Evolution.

(** X1: in every session reached from a fresh connection by open calls,
    idle dispatches and socket dispatches, whether they returned, blocked or
    ended the process, the compositor's [session_active] is the value
    carried by the last session signal emitted, and the value at connection
    time if none was emitted: the flag never changes without a signal and
    no signal carries a stale value. *)
Theorem session_active_follows_signals :
  forall {proto : weston_launch_h} (acts : list action) (l : launcher_weston_launch)
         (active : bool) (rx : list recv_result) (tx : list send_result)
         (ioc : Z -> Z -> Z -> Z) (oom : bool),
    session_active (snd (run acts (boot l active rx tx ioc oom)))
    = replay active (trace (snd (run acts (boot l active rx tx ioc oom)))).
Proof.
  intros proto acts l active rx tx ioc oom.
  destruct (run_evolves acts (boot l active rx tx ioc oom)) as (ext & T & A & _).
  rewrite T, A. reflexivity.
Qed.

(** X2: in every such session the acknowledgements handed to [send]
    (DEACTIVATE_DONE) are at least as many as the deactivations delivered to
    the compositor, and exactly as many when no [send] is interrupted: each
    delivery is acknowledged once, and nothing else (an ACTIVATE, an
    unexpected message, an open call) is ever acknowledged. *)
Theorem every_delivery_acknowledged :
  forall {proto : weston_launch_h} (acts : list action) (l : launcher_weston_launch)
         (active : bool) (rx : list recv_result) (tx : list send_result)
         (ioc : Z -> Z -> Z -> Z) (oom : bool),
    (count is_delivery (trace (snd (run acts (boot l active rx tx ioc oom))))
     <= count is_done_send (trace (snd (run acts (boot l active rx tx ioc oom)))))%nat
    /\ (Forall calm tx ->
        count is_done_send (trace (snd (run acts (boot l active rx tx ioc oom))))
        = count is_delivery (trace (snd (run acts (boot l active rx tx ioc oom))))).
Proof.
  intros proto acts l active rx tx ioc oom.
  destruct (run_evolves acts (boot l active rx tx ioc oom)) as (ext & T & _ & L & C).
  rewrite T. simpl. split; [exact L |]. intros H. apply C. exact H.
Qed.

(** ** Further properties: the socket callback *)

Section Socket_callback.
Context {proto : weston_launch_h}.

Lemma recv_loop_read_through pre :
  forall r rest s,
    all_interrupted pre = true -> interrupted (r_len r) (r_errno r) = false ->
    recv_loop (pre ++ r :: rest) s = (Done r, read_through pre r rest s).
Proof.
  induction pre as [|r0 pre IH]; intros r rest s Hpre Hr; simpl.
  - rewrite Hr. unfold read_through. destruct s; reflexivity.
  - simpl in Hpre. apply andb_true_iff in Hpre. destruct Hpre as [H0 Hpre].
    rewrite H0, IH by assumption. unfold read_through.
    destruct s; simpl. rewrite <- app_assoc. reflexivity.
Qed.

Lemma recv_loop_blocked q :
  forall s, fst (recv_loop q s) = Blocked <-> all_interrupted q = true.
Proof.
  induction q as [|r q IH]; intros s; simpl; [tauto |].
  destruct (interrupted (r_len r) (r_errno r)); simpl.
  - apply IH.
  - split; discriminate.
Qed.

Lemma recv_loop_never_exits q : forall s c, fst (recv_loop q s) <> Exited c.
Proof.
  induction q as [|r q IH]; intros s c; simpl; [discriminate |].
  destruct (interrupted (r_len r) (r_errno r)); [apply IH | discriminate].
Qed.

Lemma read_notification_switch s r s1 :
  recv_loop (inbox s) s = (Done r, s1) ->
  read_notification s
  = (Done 1,
     if r_id r =? WESTON_LAUNCHER_ACTIVATE
     then emit (EvSignal true) (set_session_active true s1)
     else if r_id r =? WESTON_LAUNCHER_DEACTIVATE
     then delivered s1
     else emit (EvLog "unexpected event from weston-launch" []) s1).
Proof.
  intros H. unfold read_notification, bind. rewrite H.
  destruct (r_id r =? WESTON_LAUNCHER_ACTIVATE); [reflexivity |].
  destruct (r_id r =? WESTON_LAUNCHER_DEACTIVATE); [| reflexivity].
  rewrite handle_deactivate_delivered. reflexivity.
Qed.

(** X3: what becomes of a call of [launcher_weston_launch_data] is decided
    by the event mask.  With a hangup or error bit it ends the process with
    status -1: it neither returns nor waits.  Without one it never ends the
    process, and whenever it returns it returns 1, so the event source is
    never removed by its own callback. *)
Theorem data_outcome_by_mask :
  forall (fildes mask : Z) (s : session),
    match fst (launcher_weston_launch_data fildes mask s) with
    | Done v => v = 1 /\ readable_only mask
    | Exited status => status = -1 /\ ~ readable_only mask
    | Blocked => readable_only mask
    end.
Proof.
  intros fildes mask s. unfold launcher_weston_launch_data, readable_only, truthy.
  destruct (Z.eqb_spec (Z.land mask (Z.lor WL_EVENT_HANGUP WL_EVENT_ERROR)) 0)
    as [E|E]; simpl.
  - unfold bind, get, modify. simpl.
    destruct (Z.eqb_spec (deferred_deactivate (launcher s)) 0) as [D|D]; simpl.
    + destruct (recv_loop (inbox s) s) as [o s1] eqn:Hr.
      destruct o as [r|c|].
      * rewrite (read_notification_switch s r s1 Hr). simpl. auto.
      * exfalso. apply (recv_loop_never_exits (inbox s) s c). rewrite Hr. reflexivity.
      * unfold read_notification, bind. rewrite Hr. simpl. exact E.
    + rewrite handle_deactivate_delivered. simpl. auto.
  - unfold bind, weston_log, modify, exit.
    destruct (restore_eq (emit (EvLog "launcher socket closed, exiting" []) s))
      as (s' & -> & _). simpl. auto.
Qed.

(** X4: dispatched for readability with no deactivation put off, the
    socket callback reads through any interrupted results to the first
    completed one and acts on the integer it holds, whatever the length of
    that read: ACTIVATE sets [session_active], emits the signal and sends
    nothing; DEACTIVATE is delivered and acknowledged; any other value is
    logged and changes neither the connection nor [session_active].  In
    each case exactly the reads up to that one are consumed and 1 is
    returned. *)
Theorem data_steady_state_dispatch :
  forall (fildes mask : Z) (s : session)
         (pre : list recv_result) (r : recv_result) (rest : list recv_result),
    readable_only mask ->
    deferred_deactivate (launcher s) = 0 ->
    inbox s = pre ++ r :: rest ->
    all_interrupted pre = true ->
    interrupted (r_len r) (r_errno r) = false ->
    (r_id r = WESTON_LAUNCHER_ACTIVATE ->
       launcher_weston_launch_data fildes mask s
       = (Done 1, emit (EvSignal true) (set_session_active true (read_through pre r rest s))))
    /\ (r_id r = WESTON_LAUNCHER_DEACTIVATE ->
        launcher_weston_launch_data fildes mask s
        = (Done 1, delivered (read_through pre r rest s)))
    /\ (r_id r <> WESTON_LAUNCHER_ACTIVATE -> r_id r <> WESTON_LAUNCHER_DEACTIVATE ->
        launcher_weston_launch_data fildes mask s
        = (Done 1,
           emit (EvLog "unexpected event from weston-launch" [])
                (read_through pre r rest s))).
Proof.
  intros fildes mask s pre r rest Hm D Hin Hpre Hr.
  assert (Hdata : launcher_weston_launch_data fildes mask s = read_notification s).
  { unfold launcher_weston_launch_data. rewrite Hm. simpl.
    unfold bind, get. simpl. rewrite D. reflexivity. }
  assert (Hloop : recv_loop (inbox s) s = (Done r, read_through pre r rest s))
    by (rewrite Hin; apply recv_loop_read_through; assumption).
  rewrite Hdata, (read_notification_switch s r _ Hloop).
  split; [| split].
  - intros ->. rewrite Z.eqb_refl. reflexivity.
  - intros E. rewrite E.
    destruct (Z.eqb_spec WESTON_LAUNCHER_DEACTIVATE WESTON_LAUNCHER_ACTIVATE) as [C|C];
      [exfalso; apply switch_cases_distinct; auto |].
    rewrite Z.eqb_refl. reflexivity.
  - intros N1 N2.
    destruct (Z.eqb_spec (r_id r) WESTON_LAUNCHER_ACTIVATE); [contradiction |].
    destruct (Z.eqb_spec (r_id r) WESTON_LAUNCHER_DEACTIVATE); [contradiction |].
    reflexivity.
Qed.

End Socket_callback.

Lemma data_steady_state_dispatch_witness :
  launcher_weston_launch_data 5 WL_EVENT_READABLE session_switching
  = (Done 1,
     delivered (read_through [eintr_recv] deactivate_msg
                  [eintr_recv; mkRecv sizeof_int 0 WESTON_LAUNCHER_ACTIVATE 0 None]
                  session_switching))
  /\ session_active
       (snd (run [DispatchData WL_EVENT_READABLE; DispatchData WL_EVENT_READABLE]
                 session_switching)) = true.
Proof.
  split; [| reflexivity].
  refine (proj1 (proj2 (data_steady_state_dispatch
                          5 WL_EVENT_READABLE session_switching [eintr_recv] deactivate_msg
                          [eintr_recv; mkRecv sizeof_int 0 WESTON_LAUNCHER_ACTIVATE 0 None]
                          eq_refl eq_refl eq_refl eq_refl eq_refl)) eq_refl).
Defined.

(** ** Further properties: descriptors from the environment *)

Section Environment.
Context {helpers : string_helpers_h}.

Lemma cloexec_set flags : Z.land (Z.lor flags FD_CLOEXEC) FD_CLOEXEC = FD_CLOEXEC.
Proof.
  unfold FD_CLOEXEC. apply Z.bits_inj'. intros n Hn.
  rewrite Z.land_spec, Z.lor_spec.
  destruct (Z.testbit 1 n); [rewrite orb_true_r; reflexivity | apply andb_false_r].
Qed.

Lemma cloexec_keeps_other_bits flags i :
  0 < i -> Z.testbit (Z.lor flags FD_CLOEXEC) i = Z.testbit flags i.
Proof.
  intros Hi. unfold FD_CLOEXEC. rewrite Z.lor_spec.
  rewrite (Z.bits_above_log2 1 i) by (simpl; lia). apply orb_false_r.
Qed.

Lemma get_fd_cases name p :
  (fst (fst (launcher_weston_environment_get_fd name p)) = -1
   /\ snd (fst (launcher_weston_environment_get_fd name p)) = p)
  \/ exists e flags,
       environ p !! name = Some e
       /\ safe_strtoint e = Some (fst (fst (launcher_weston_environment_get_fd name p)))
       /\ fdflags p !! fst (fst (launcher_weston_environment_get_fd name p)) = Some flags
       /\ flags <> -1
       /\ snd (fst (launcher_weston_environment_get_fd name p))
          = mkProcess (delete name (environ p))
              (<[fst (fst (launcher_weston_environment_get_fd name p))
                 := Z.lor flags FD_CLOEXEC]> (fdflags p)).
Proof.
  unfold launcher_weston_environment_get_fd, fcntl_getfd.
  destruct (environ p !! name) as [e|]; [| left; auto].
  destruct (safe_strtoint e) as [fildes|] eqn:Hp; [| left; auto].
  destruct (fdflags p !! fildes) as [flags|] eqn:Hf; simpl; [| left; auto].
  destruct (Z.eqb_spec flags (-1)); simpl; [left; auto |].
  right. exists e, flags. rewrite Hf. auto.
Qed.

(** X5: [launcher_weston_environment_get_fd] on a slot that is not set,
    does not parse or names a descriptor that is not open returns -1 with
    one log line and leaves the environment and the descriptors as they
    were (the variable is not erased).  On a slot that names an open
    descriptor it returns that descriptor without logging, sets the
    close-on-exec bit of its flags and keeps the other bits, erases that
    variable and no other, and touches no other descriptor; the same slot
    read again then yields -1: a descriptor is taken from the environment
    at most once. *)
Theorem environment_slot_read_once :
  forall (name : string) (p : process),
    (slot_unusable name p ->
       fst (launcher_weston_environment_get_fd name p) = (-1, p)
       /\ List.length (snd (launcher_weston_environment_get_fd name p)) = 1%nat)
    /\ (forall e fildes flags,
          environ p !! name = Some e -> safe_strtoint e = Some fildes ->
          fdflags p !! fildes = Some flags -> flags <> -1 ->
          exists p',
            launcher_weston_environment_get_fd name p = (fildes, p', [])
            /\ environ p' !! name = None
            /\ (forall other, other <> name -> environ p' !! other = environ p !! other)
            /\ Z.land (fcntl_getfd p' fildes) FD_CLOEXEC = FD_CLOEXEC
            /\ (forall i, 0 < i ->
                  Z.testbit (fcntl_getfd p' fildes) i = Z.testbit flags i)
            /\ (forall other, other <> fildes ->
                  fdflags p' !! other = fdflags p !! other)
            /\ fst (launcher_weston_environment_get_fd name p') = (-1, p')).
Proof.
  intros name p. split.
  - unfold slot_unusable, launcher_weston_environment_get_fd, fcntl_getfd.
    destruct (environ p !! name) as [e|]; [| auto].
    destruct (safe_strtoint e) as [fildes|]; [| auto].
    intros ->. simpl. auto.
  - intros e fildes flags He Hp Hf Hflags.
    eexists. split; [apply (get_fd_usable _ _ _ _ _ He Hp Hf Hflags) |].
    simpl. split; [apply lookup_delete_eq |].
    split; [intros other Ho; apply lookup_delete_ne; congruence |].
    unfold fcntl_getfd. simpl. rewrite lookup_insert_eq. simpl.
    split; [apply cloexec_set |].
    split; [intros i Hi; apply cloexec_keeps_other_bits; exact Hi |].
    split; [intros other Ho; apply lookup_insert_ne; congruence |].
    unfold launcher_weston_environment_get_fd. simpl.
    rewrite lookup_delete_eq. reflexivity.
Qed.

Lemma connect_success malloc_ok src tty_arg seat_id sync_drm p l :
  c_out (launcher_weston_launch_connect malloc_ok src tty_arg seat_id sync_drm p) = Some l ->
  malloc_ok = true /\ src <> 0
  /\ fd l = fst (fst (launcher_weston_environment_get_fd "WESTON_LAUNCHER_SOCK" p))
  /\ fd l <> -1
  /\ tty l = fst (fst (launcher_weston_environment_get_fd "WESTON_TTY_FD"
                         (snd (fst (launcher_weston_environment_get_fd
                                      "WESTON_LAUNCHER_SOCK" p)))))
  /\ c_process (launcher_weston_launch_connect malloc_ok src tty_arg seat_id sync_drm p)
     = snd (fst (launcher_weston_environment_get_fd "WESTON_TTY_FD"
                   (snd (fst (launcher_weston_environment_get_fd
                                "WESTON_LAUNCHER_SOCK" p)))))
  /\ c_ret (launcher_weston_launch_connect malloc_ok src tty_arg seat_id sync_drm p) = 0.
Proof.
  unfold launcher_weston_launch_connect.
  destruct malloc_ok; simpl; [| discriminate].
  destruct (launcher_weston_environment_get_fd "WESTON_LAUNCHER_SOCK" p) as [[sock p1] t1].
  simpl. destruct (Z.eqb_spec sock (-1)); [discriminate |].
  destruct (launcher_weston_environment_get_fd "WESTON_TTY_FD" p1) as [[term p2] t2].
  simpl. destruct (Z.eqb_spec src 0); simpl; [discriminate |].
  intros H. inversion H; subst. simpl. repeat split; assumption.
Qed.

(** X6: a successful [launcher_weston_launch_connect] uses up what it was
    given through the environment.  In the process it leaves, the socket
    variable is erased and the socket descriptor is close-on-exec; when the
    connection has a terminal descriptor, the terminal variable is erased
    and that descriptor is close-on-exec too; and a second connect in that
    process fails with -1, storing nothing. *)
Theorem connect_consumes_environment :
  forall (malloc_ok : bool) (src tty_arg : Z) (seat_id : string) (sync_drm : bool)
         (p : process) (l : launcher_weston_launch),
    c_out (launcher_weston_launch_connect malloc_ok src tty_arg seat_id sync_drm p) = Some l ->
    environ (c_process (launcher_weston_launch_connect malloc_ok src tty_arg seat_id
                          sync_drm p)) !! "WESTON_LAUNCHER_SOCK" = None
    /\ Z.land (fcntl_getfd (c_process (launcher_weston_launch_connect malloc_ok src tty_arg
                                         seat_id sync_drm p)) (fd l)) FD_CLOEXEC
       = FD_CLOEXEC
    /\ (tty l <> -1 ->
        environ (c_process (launcher_weston_launch_connect malloc_ok src tty_arg seat_id
                              sync_drm p)) !! "WESTON_TTY_FD" = None
        /\ Z.land (fcntl_getfd (c_process (launcher_weston_launch_connect malloc_ok src
                                             tty_arg seat_id sync_drm p)) (tty l))
                  FD_CLOEXEC
           = FD_CLOEXEC)
    /\ (forall src' tty_arg' seat_id' sync_drm',
          c_ret (launcher_weston_launch_connect true src' tty_arg' seat_id' sync_drm'
                   (c_process (launcher_weston_launch_connect malloc_ok src tty_arg seat_id
                                 sync_drm p))) = -1
          /\ c_out (launcher_weston_launch_connect true src' tty_arg' seat_id' sync_drm'
                      (c_process (launcher_weston_launch_connect malloc_ok src tty_arg
                                    seat_id sync_drm p))) = None).
Proof.
  intros malloc_ok src tty_arg seat_id sync_drm p l Hout.
  destruct (connect_success _ _ _ _ _ _ _ Hout) as (_ & _ & Hfd & Hne & Htty & -> & _).
  destruct (get_fd_cases "WESTON_LAUNCHER_SOCK" p)
    as [(E & _)|(e & flags & He & Hp & Hf & Hflags & Hp1)]; [congruence |].
  rewrite <- Hfd in Hp, Hf, Hp1.
  set (p1 := snd (fst (launcher_weston_environment_get_fd "WESTON_LAUNCHER_SOCK" p))) in *.
  assert (Hsock1 : environ p1 !! "WESTON_LAUNCHER_SOCK" = None)
    by (rewrite Hp1; simpl; apply lookup_delete_eq).
  assert (Hcx1 : Z.land (fcntl_getfd p1 (fd l)) FD_CLOEXEC = FD_CLOEXEC).
  { rewrite Hp1. unfold fcntl_getfd. simpl. rewrite lookup_insert_eq. simpl.
    apply cloexec_set. }
  assert (Hfacts :
    environ (snd (fst (launcher_weston_environment_get_fd "WESTON_TTY_FD" p1)))
      !! "WESTON_LAUNCHER_SOCK" = None
    /\ Z.land (fcntl_getfd (snd (fst (launcher_weston_environment_get_fd "WESTON_TTY_FD" p1)))
                           (fd l)) FD_CLOEXEC = FD_CLOEXEC
    /\ (tty l <> -1 ->
        environ (snd (fst (launcher_weston_environment_get_fd "WESTON_TTY_FD" p1)))
          !! "WESTON_TTY_FD" = None
        /\ Z.land (fcntl_getfd (snd (fst (launcher_weston_environment_get_fd
                                           "WESTON_TTY_FD" p1))) (tty l)) FD_CLOEXEC
           = FD_CLOEXEC)).
  { destruct (get_fd_cases "WESTON_TTY_FD" p1)
      as [(E & ->)|(e' & flags' & He' & Hp' & Hf' & Hflags' & ->)].
    - rewrite <- Htty in E. split; [exact Hsock1 |]. split; [exact Hcx1 |].
      intros; congruence.
    - rewrite <- Htty in *. simpl.
      split; [rewrite lookup_delete_ne by discriminate; exact Hsock1 |].
      unfold fcntl_getfd in *. simpl.
      split.
      + destruct (Z.eq_dec (tty l) (fd l)) as [Eq|Ne].
        * rewrite Eq, lookup_insert_eq. simpl. apply cloexec_set.
        * rewrite lookup_insert_ne by assumption. exact Hcx1.
      + intros _. split; [apply lookup_delete_eq |].
        rewrite lookup_insert_eq. simpl. apply cloexec_set. }
  destruct Hfacts as (F1 & F2 & F3).
  split; [exact F1 |]. split; [exact F2 |]. split; [exact F3 |].
  intros src' tty_arg' seat_id' sync_drm'.
  assert (Hbad : slot_unusable "WESTON_LAUNCHER_SOCK"
                   (snd (fst (launcher_weston_environment_get_fd "WESTON_TTY_FD" p1))))
    by (unfold slot_unusable; rewrite F1; exact I).
  generalize dependent (snd (fst (launcher_weston_environment_get_fd "WESTON_TTY_FD" p1))).
  intros p2 _ _ _ Hbad.
  unfold launcher_weston_launch_connect. simpl.
  destruct (get_fd_unusable _ _ Hbad) as (t & ->). simpl. auto.
Qed.

(** X7: on a process whose descriptor table is well formed,
    [launcher_weston_launch_connect] returns 0 exactly when the object could
    be allocated, the socket slot names an open descriptor and the event
    source was registered; it returns -1 exactly when the object was
    allocated and the socket slot is unusable; and it returns -ENOMEM
    exactly when the allocation failed or the event source could not be
    registered for a usable socket.  The terminal slot, the [tty] argument,
    the seat and [sync_drm] have no part in the outcome. *)
Theorem connect_return_value :
  forall (malloc_ok : bool) (src tty_arg : Z) (seat_id : string) (sync_drm : bool)
         (p : process),
    sane p ->
    (c_ret (launcher_weston_launch_connect malloc_ok src tty_arg seat_id sync_drm p) = 0
     <-> malloc_ok = true /\ src <> 0 /\ ~ slot_unusable "WESTON_LAUNCHER_SOCK" p)
    /\ (c_ret (launcher_weston_launch_connect malloc_ok src tty_arg seat_id sync_drm p) = -1
        <-> malloc_ok = true /\ slot_unusable "WESTON_LAUNCHER_SOCK" p)
    /\ (c_ret (launcher_weston_launch_connect malloc_ok src tty_arg seat_id sync_drm p)
        = - ENOMEM
        <-> malloc_ok = false
            \/ (src = 0 /\ ~ slot_unusable "WESTON_LAUNCHER_SOCK" p)).
Proof.
  intros malloc_ok src tty_arg seat_id sync_drm p Hsane.
  unfold launcher_weston_launch_connect.
  destruct malloc_ok; simpl.
  2:{ unfold ENOMEM. intuition (first [lia | congruence]). }
  assert (Hdec : slot_unusable "WESTON_LAUNCHER_SOCK" p
                 \/ exists e fildes flags,
                      environ p !! "WESTON_LAUNCHER_SOCK" = Some e
                      /\ safe_strtoint e = Some fildes
                      /\ fdflags p !! fildes = Some flags).
  { unfold slot_unusable.
    destruct (environ p !! "WESTON_LAUNCHER_SOCK") as [e|]; [| left; exact I].
    destruct (safe_strtoint e) as [fildes|] eqn:Hp; [| left; exact I].
    destruct (fdflags p !! fildes) as [flags|] eqn:Hf; [| left; reflexivity].
    right. exists e, fildes, flags. auto. }
  destruct Hdec as [Hbad|(e & fildes & flags & He & Hp & Hf)].
  - destruct (get_fd_unusable _ _ Hbad) as (t & ->). simpl. unfold ENOMEM.
    intuition (first [lia | congruence]).
  - assert (Hgood : ~ slot_unusable "WESTON_LAUNCHER_SOCK" p).
    { unfold slot_unusable. rewrite He, Hp, Hf. discriminate. }
    destruct (Hsane _ _ Hf) as [Hfd Hfl].
    rewrite (get_fd_usable _ _ _ _ _ He Hp Hf) by lia.
    destruct (Z.eqb_spec fildes (-1)); [lia |].
    destruct (launcher_weston_environment_get_fd "WESTON_TTY_FD" _) as [[term p2] t2].
    destruct (Z.eqb_spec src 0) as [Es|Es]; simpl; unfold ENOMEM;
      intuition (first [lia | congruence]).
Qed.

End Environment.

Lemma sample_process_sane : sane sample_process.
Proof.
  intros fildes flags H. unfold sample_process in H. simpl in H.
  apply lookup_insert_Some in H. destruct H as [[<- <-]|[_ H]]; [lia |].
  apply lookup_singleton_Some in H. destruct H as [<- <-]. lia.
Qed.

Lemma connect_consumes_environment_witness :
  environ (c_process (launcher_weston_launch_connect true 1 7 "seat0" false sample_process))
    !! "WESTON_LAUNCHER_SOCK" = None
  /\ c_ret (launcher_weston_launch_connect true 1 7 "seat0" false
              (c_process (launcher_weston_launch_connect true 1 7 "seat0" false
                            sample_process))) = -1.
Proof.
  assert (H : c_out (launcher_weston_launch_connect true 1 7 "seat0" false sample_process)
              = Some sample_launcher) by (vm_compute; reflexivity).
  destruct (connect_consumes_environment true 1 7 "seat0" false sample_process
              sample_launcher H) as (H1 & _ & _ & H4).
  split; [exact H1 |]. exact (proj1 (H4 1 7 "seat0" false)).
Defined.

Lemma connect_return_value_witness :
  c_ret (launcher_weston_launch_connect true 1 7 "seat0" false sample_process) = 0
  /\ c_ret (launcher_weston_launch_connect true 0 7 "seat0" false sample_process)
     = - ENOMEM.
Proof.
  assert (Hgood : ~ slot_unusable "WESTON_LAUNCHER_SOCK" sample_process)
    by (vm_compute; discriminate).
  split.
  - apply (proj1 (connect_return_value true 1 7 "seat0" false sample_process
                    sample_process_sane)).
    repeat split; [discriminate | exact Hgood].
  - apply (proj2 (proj2 (proj2 (connect_return_value true 0 7 "seat0" false sample_process
                                  sample_process_sane)))).
    right. split; [reflexivity | exact Hgood].
Defined.

(** ** Further properties: what an open call reads *)

Section Open_reads.
Context {proto : weston_launch_h}.

Lemma reply_not_interrupted r :
  r_len r = sizeof_event -> interrupted (r_len r) (r_errno r) = false.
Proof. intros ->. reflexivity. Qed.

Lemma open_wait_returns q :
  forall s r,
    In r q -> r_len r = sizeof_event -> r_id r = WESTON_LAUNCHER_OPEN_REPLY ->
    exists x s', open_wait q s = (Done x, s').
Proof.
  induction q as [|r0 q IH]; intros s r Hin L I; [destruct Hin |]. simpl.
  destruct (interrupted (r_len r0) (r_errno r0)) eqn:Hi.
  { destruct Hin as [-> | Hin]; [rewrite reply_not_interrupted in Hi by assumption;
                                discriminate |].
    eapply IH; eauto. }
  destruct ((r_len r0 =? sizeof_event) && (r_id r0 =? WESTON_LAUNCHER_OPEN_REPLY)) eqn:Hrep;
    [eauto |].
  destruct Hin as [-> | Hin].
  { rewrite L, I, !Z.eqb_refl in Hrep. discriminate. }
  destruct ((r_len r0 =? sizeof_int) && (r_id r0 =? WESTON_LAUNCHER_DEACTIVATE)
            && (deferred_deactivate (launcher s) =? 0)); [| eauto].
  eapply IH; eauto.
Qed.

Lemma open_wait_blocked q :
  forall s, fst (open_wait q s) = Blocked ->
    Forall passed_over q /\ inbox (snd (open_wait q s)) = inbox (set_inbox [] s)
    \/ q = [].
Proof.
  induction q as [|r q IH]; intros s H; [right; reflexivity |]. left.
  simpl in *.
  assert (Hrest : forall s0, fst (open_wait q s0) = Blocked ->
                    inbox s0 = q ->
                    Forall passed_over q /\ inbox (snd (open_wait q s0)) = []).
  { intros s0 H0 Hq. destruct (IH s0 H0) as [[F E]| ->].
    - split; [exact F |]. rewrite E. destruct s0; reflexivity.
    - split; [constructor |]. simpl. exact Hq. }
  destruct (interrupted (r_len r) (r_errno r)) eqn:Hi.
  { destruct (Hrest _ H) as [F E]; [destruct s; reflexivity |].
    split; [constructor; [left; exact Hi | exact F] |].
    rewrite E. destruct s; reflexivity. }
  destruct ((r_len r =? sizeof_event) && (r_id r =? WESTON_LAUNCHER_OPEN_REPLY));
    [discriminate |].
  destruct ((r_len r =? sizeof_int) && (r_id r =? WESTON_LAUNCHER_DEACTIVATE)
            && (deferred_deactivate (launcher s) =? 0)) eqn:Hdea; [| discriminate].
  apply andb_true_iff in Hdea. destruct Hdea as [Hdea _].
  apply andb_true_iff in Hdea. destruct Hdea as [A B]. apply Z.eqb_eq in A, B.
  destruct (Hrest _ H) as [F E]; [destruct s; reflexivity |].
  split; [constructor; [right; auto | exact F] |].
  rewrite E. destruct s; reflexivity.
Qed.

Lemma open_reply_inbox r s : inbox (snd (open_reply r s)) = inbox s.
Proof.
  rewrite open_reply_eq.
  destruct (r_ret r <? 0); [reflexivity |].
  destruct (r_cmsg r) as [c|]; [| destruct s; reflexivity].
  destruct (negb (cmsg_level c =? SOL_SOCKET) || negb (cmsg_type c =? SCM_RIGHTS));
    [destruct s; reflexivity |].
  destruct (cmsg_fd c =? -1); [destruct s; reflexivity | reflexivity].
Qed.

Lemma open_reply_returns r s : exists v, fst (open_reply r s) = Done v.
Proof.
  rewrite open_reply_eq.
  destruct (r_ret r <? 0); [eauto |].
  destruct (r_cmsg r) as [c|]; [| eauto].
  destruct (negb (cmsg_level c =? SOL_SOCKET) || negb (cmsg_type c =? SCM_RIGHTS));
    [eauto |].
  destruct (cmsg_fd c =? -1); eauto.
Qed.

(** X8: once the OPEN message has been handed to [send], the wait of
    [launcher_weston_launch_open] for its answer ([open_receive], which
    makes no call of [send]) ends as soon as an answer is there: if the
    reads to come hold a read of two integers carrying OPEN_REPLY, it
    returns.  It waits for ever only after reading everything it was
    offered, and only if each of those reads was an interruption or a
    DEACTIVATE.  Neither it nor the whole call ever ends the process. *)
Theorem open_returns_once_answered :
  forall (path : string) (flags : Z) (s : session),
    (forall r, In r (inbox s) ->
               r_len r = sizeof_event -> r_id r = WESTON_LAUNCHER_OPEN_REPLY ->
               exists v s', open_receive s = (Done v, s'))
    /\ (forall status, fst (open_receive s) <> Exited status)
    /\ (forall status, fst (launcher_weston_launch_open path flags s) <> Exited status)
    /\ (fst (open_receive s) = Blocked ->
        Forall passed_over (inbox s)
        /\ inbox (snd (open_receive s)) = []).
Proof.
  intros path flags s.
  assert (Hne : forall s0 status, fst (open_receive s0) <> Exited status).
  { intros s0 status. unfold open_receive, bind.
    destruct (open_wait (inbox s0) s0) as [o s1] eqn:Hw.
    apply open_wait_effect in Hw. destruct Hw as (_ & _ & Hne & _).
    destruct o as [[r1|c]| |]; simpl; try discriminate.
    + destruct (open_reply_returns r1 s1) as (v & ->). discriminate.
    + exfalso. eapply Hne. reflexivity. }
  split; [| split; [apply Hne | split]].
  - intros r Hr L I. unfold open_receive, bind.
    destruct (open_wait_returns (inbox s) s r Hr L I) as (x & s1 & ->).
    destruct x as [r1|c]; [| unfold ret; eauto].
    destruct (open_reply_returns r1 s1) as (v & Hv).
    destruct (open_reply r1 s1) as [o s2]. simpl in Hv. subst. eauto.
  - intros status. destruct (heap_exhausted s) eqn:Hoom.
    + unfold launcher_weston_launch_open, bind, get, ret. simpl. rewrite Hoom.
      discriminate.
    + rewrite open_unfold by assumption. apply Hne.
  - unfold open_receive, bind.
    pose proof (open_wait_blocked (inbox s) s) as Hb.
    destruct (open_wait (inbox s) s) as [o s1] eqn:Hw.
    destruct o as [[r1|c]| |]; simpl.
    + destruct (open_reply_returns r1 s1) as (v & ->). discriminate.
    + discriminate.
    + discriminate.
    + intros _. destruct (Hb eq_refl) as [[F E]|E].
      * split; [exact F |]. simpl in E. rewrite E. destruct s; reflexivity.
      * rewrite E in *. split; [constructor |].
        simpl in Hw. inversion Hw; subst. exact E.
Qed.

Lemma open_wait_stops q :
  forall s x s',
    open_wait q s = (Done x, s') ->
    exists pre r,
      q = pre ++ r :: inbox s'
      /\ Forall passed_over pre
      /\ interrupted (r_len r) (r_errno r) = false
      /\ (forall r', x = LoopBreak r' -> r' = r).
Proof.
  induction q as [|r0 q IH]; intros s x s' H; simpl in H; [discriminate |].
  assert (Hextend : forall s0, open_wait q s0 = (Done x, s') -> passed_over r0 ->
            exists pre r,
              r0 :: q = pre ++ r :: inbox s'
              /\ Forall passed_over pre
              /\ interrupted (r_len r) (r_errno r) = false
              /\ (forall r', x = LoopBreak r' -> r' = r)).
  { intros s0 H0 Hp. destruct (IH _ _ _ H0) as (pre & r & E & F & I & B).
    exists (r0 :: pre), r. rewrite E. repeat split; auto. }
  destruct (interrupted (r_len r0) (r_errno r0)) eqn:Hi.
  { eapply Hextend; [exact H | left; exact Hi]. }
  destruct ((r_len r0 =? sizeof_event) && (r_id r0 =? WESTON_LAUNCHER_OPEN_REPLY)).
  { inversion H; subst. exists [], r0. simpl.
    replace (inbox (received r0 q s)) with q by (destruct s; reflexivity).
    repeat split; auto. intros r' E. inversion E; reflexivity. }
  destruct ((r_len r0 =? sizeof_int) && (r_id r0 =? WESTON_LAUNCHER_DEACTIVATE)
            && (deferred_deactivate (launcher s) =? 0)) eqn:Hdea.
  { apply andb_true_iff in Hdea. destruct Hdea as [Hdea _].
    apply andb_true_iff in Hdea. destruct Hdea as [A B]. apply Z.eqb_eq in A, B.
    eapply Hextend; [exact H | right; auto]. }
  inversion H; subst. exists [], r0. simpl.
  replace (inbox (emit (unexpected_event r0) (received r0 q s))) with q
    by (destruct s; reflexivity).
  repeat split; auto. intros r' E. discriminate E.
Qed.

(** X9: a call of [launcher_weston_launch_open] that returns has read no
    further than the message that decided it.  Without memory for the
    request it returns -1 and leaves the session as it was: nothing sent,
    nothing read.  Otherwise the reads it consumed are some interrupted
    reads and deferred DEACTIVATEs followed by one completed read, and
    whatever follows that read is still there for later calls; when the
    value returned is not -1, that last read is the OPEN_REPLY and the value
    is the descriptor attached to it. *)
Theorem open_reads_up_to_its_answer :
  forall (path : string) (flags : Z) (s s' : session) (v : Z),
    launcher_weston_launch_open path flags s = (Done v, s') ->
    (heap_exhausted s = true -> v = -1 /\ s' = s)
    /\ (heap_exhausted s = false ->
        exists pre r,
          inbox s = pre ++ r :: inbox s'
          /\ Forall passed_over pre
          /\ interrupted (r_len r) (r_errno r) = false
          /\ (v <> -1 ->
              r_len r = sizeof_event /\ r_id r = WESTON_LAUNCHER_OPEN_REPLY
              /\ exists c, r_cmsg r = Some c /\ cmsg_fd c = v)).
Proof.
  intros path flags s s' v H. split.
  - intros Hoom. unfold launcher_weston_launch_open, bind, get, ret in H. simpl in H.
    rewrite Hoom in H. inversion H. auto.
  - intros Hoom. rewrite open_unfold in H by assumption.
    fold (requested path flags s) in H.
    assert (Hin : inbox (requested path flags s) = inbox s) by (destruct s; reflexivity).
    unfold open_receive, bind in H. rewrite Hin in H.
    destruct (open_wait (inbox s) (requested path flags s)) as [o s1] eqn:Hw.
    destruct o as [x| |]; try discriminate.
    destruct (open_wait_stops _ _ _ _ Hw) as (pre & r & E & F & I & B).
    apply open_wait_effect in Hw. destruct Hw as (_ & _ & _ & Hbreak & Hret).
    destruct x as [r1|c].
    + pose proof (B r1 eq_refl) as ->.
      destruct (Hbreak r eq_refl) as (L & Id & _).
      pose proof (open_reply_inbox r s1) as Hi. rewrite H in Hi. simpl in Hi.
      exists pre, r. rewrite Hi. repeat split; auto.
      rewrite open_reply_eq in H.
      destruct (r_ret r <? 0); [inversion H; subst; contradiction |].
      destruct (r_cmsg r) as [c|]; [| inversion H; subst; contradiction].
      destruct (negb (cmsg_level c =? SOL_SOCKET) || negb (cmsg_type c =? SCM_RIGHTS));
        [inversion H; subst; contradiction |].
      destruct (cmsg_fd c =? -1); inversion H; subst; [contradiction |]. eauto.
    + unfold ret in H. inversion H; subst.
      exists pre, r. repeat split; auto; exfalso; apply H0; apply Hret; reflexivity.
Qed.

End Open_reads.

Lemma open_reads_up_to_its_answer_witness :
  inbox (snd (launcher_weston_launch_open "/dev/dri/card0" 2 session_reply_then_activate))
  = [mkRecv sizeof_int 0 WESTON_LAUNCHER_ACTIVATE 0 None]
  /\ exists pre r,
       inbox session_reply_then_activate
       = pre ++ r :: inbox (snd (launcher_weston_launch_open "/dev/dri/card0" 2
                                   session_reply_then_activate))
       /\ Forall passed_over pre
       /\ interrupted (r_len r) (r_errno r) = false.
Proof.
  split; [reflexivity |].
  assert (H : launcher_weston_launch_open "/dev/dri/card0" 2 session_reply_then_activate
              = (Done 9, snd (launcher_weston_launch_open "/dev/dri/card0" 2
                                session_reply_then_activate)))
    by (vm_compute; reflexivity).
  destruct (proj2 (open_reads_up_to_its_answer _ _ _ _ _ H) eq_refl)
    as (pre & r & E & F & I & _).
  exists pre, r. auto.
Defined.

(** ** Further properties: interrupted reads *)

Section Interrupted_reads.
Context {proto : weston_launch_h}.

Lemma same_state_refl s : same_state s s.
Proof. unfold same_state. auto. Qed.

Lemma open_wait_completed q :
  forall s1 s2,
    same_state s1 s2 -> inbox s2 = completed (inbox s1) -> inbox s1 = q ->
    fst (open_wait (completed q) s2) = fst (open_wait q s1)
    /\ same_state (snd (open_wait q s1)) (snd (open_wait (completed q) s2))
    /\ inbox (snd (open_wait (completed q) s2)) = completed (inbox (snd (open_wait q s1))).
Proof.
  induction q as [|r q IH]; intros s1 s2 Hs Hi Hq; simpl.
  - auto.
  - destruct Hs as (A & B & C).
    destruct (interrupted (r_len r) (r_errno r)) eqn:Hint.
    + apply IH.
      * unfold same_state, received. destruct s1, s2; simpl in *. auto.
      * rewrite Hi, Hq. simpl. rewrite Hint. destruct s1; reflexivity.
      * destruct s1; reflexivity.
    + simpl. rewrite Hint.
      assert (Hrec : same_state (received r q s1) (received r (completed q) s2)
                     /\ inbox (received r (completed q) s2)
                        = completed (inbox (received r q s1))
                     /\ inbox (received r q s1) = q).
      { unfold same_state, received. destruct s1, s2; simpl in *. auto. }
      destruct Hrec as (R1 & R2 & R3).
      destruct ((r_len r =? sizeof_event) && (r_id r =? WESTON_LAUNCHER_OPEN_REPLY));
        [simpl; auto |].
      rewrite <- A.
      destruct ((r_len r =? sizeof_int) && (r_id r =? WESTON_LAUNCHER_DEACTIVATE)
                && (deferred_deactivate (launcher s1) =? 0)).
      * apply IH.
        -- unfold same_state, set_deferred_deactivate, wl_event_loop_add_idle, received.
           destruct s1, s2; simpl in *. subst. auto.
        -- destruct s1, s2; simpl in *. reflexivity.
        -- destruct s1; reflexivity.
      * simpl. split; [reflexivity |]. split.
        -- unfold same_state, received. destruct s1, s2; simpl in *. auto.
        -- destruct s1, s2; reflexivity.
Qed.

Lemma open_reply_same_state r s1 s2 :
  same_state s1 s2 ->
  fst (open_reply r s2) = fst (open_reply r s1)
  /\ same_state (snd (open_reply r s1)) (snd (open_reply r s2)).
Proof.
  intros Hs. rewrite !open_reply_eq.
  assert (Hlog : forall m, same_state (emit (EvStderr m) s1) (emit (EvStderr m) s2)).
  { intros m. unfold same_state in *. destruct s1, s2; simpl in *. exact Hs. }
  destruct (r_ret r <? 0); [simpl; auto |].
  destruct (r_cmsg r) as [c|]; [| simpl; auto].
  destruct (negb (cmsg_level c =? SOL_SOCKET) || negb (cmsg_type c =? SCM_RIGHTS));
    [simpl; auto |].
  destruct (cmsg_fd c =? -1); simpl; auto.
Qed.

Lemma recv_loop_completed q :
  forall s1 s2,
    same_state s1 s2 ->
    fst (recv_loop (completed q) s2) = fst (recv_loop q s1)
    /\ same_state (snd (recv_loop q s1)) (snd (recv_loop (completed q) s2)).
Proof.
  induction q as [|r q IH]; intros s1 s2 Hs; simpl; [auto |].
  destruct (interrupted (r_len r) (r_errno r)) eqn:Hint.
  - apply IH. unfold same_state in *. destruct s1, s2; simpl in *. exact Hs.
  - simpl. rewrite Hint. simpl. split; [reflexivity |].
    unfold same_state in *. destruct s1, s2; simpl in *. exact Hs.
Qed.

Lemma delivered_same_state s1 s2 :
  same_state s1 s2 -> same_state (delivered s1) (delivered s2).
Proof.
  intros (A & B & C). unfold same_state.
  destruct (delivered_effect s1) as (L1 & I1 & _ & A1 & _).
  destruct (delivered_effect s2) as (L2 & I2 & _ & A2 & _).
  rewrite L1, L2, I1, I2, A1, A2. auto.
Qed.

Lemma open_without_memory path flags s :
  heap_exhausted s = true ->
  launcher_weston_launch_open path flags s = (Done (-1), s).
Proof.
  intros H. unfold launcher_weston_launch_open, bind, get, ret. simpl. rewrite H.
  reflexivity.
Qed.

(** X10: interrupted reads are invisible.  Taking the interrupted results
    out of the reads to come changes neither what
    [launcher_weston_launch_open] returns (or whether it waits), nor the
    connection, [session_active] and the idle callbacks it leaves, nor,
    interruptions apart, the reads it leaves unread; and the same holds for
    the outcome and the state left by the socket callback
    [launcher_weston_launch_data], whatever the event mask. *)
Theorem interrupted_reads_invisible :
  forall (path : string) (flags fildes mask : Z) (s : session),
    fst (launcher_weston_launch_open path flags (set_inbox (completed (inbox s)) s))
    = fst (launcher_weston_launch_open path flags s)
    /\ same_state (snd (launcher_weston_launch_open path flags s))
         (snd (launcher_weston_launch_open path flags (set_inbox (completed (inbox s)) s)))
    /\ inbox (snd (launcher_weston_launch_open path flags
                     (set_inbox (completed (inbox s)) s)))
       = completed (inbox (snd (launcher_weston_launch_open path flags s)))
    /\ fst (launcher_weston_launch_data fildes mask (set_inbox (completed (inbox s)) s))
       = fst (launcher_weston_launch_data fildes mask s)
    /\ same_state (snd (launcher_weston_launch_data fildes mask s))
         (snd (launcher_weston_launch_data fildes mask
                 (set_inbox (completed (inbox s)) s))).
Proof.
  intros path flags fildes mask s.
  set (s2 := set_inbox (completed (inbox s)) s).
  assert (Hs : same_state s s2) by (unfold s2, same_state; destruct s; simpl; auto).
  assert (Hopen :
    fst (launcher_weston_launch_open path flags s2)
    = fst (launcher_weston_launch_open path flags s)
    /\ same_state (snd (launcher_weston_launch_open path flags s))
                  (snd (launcher_weston_launch_open path flags s2))
    /\ inbox (snd (launcher_weston_launch_open path flags s2))
       = completed (inbox (snd (launcher_weston_launch_open path flags s)))).
  { destruct (heap_exhausted s) eqn:Hoom.
    - assert (Hoom2 : heap_exhausted s2 = true) by (unfold s2; destruct s; exact Hoom).
      rewrite !open_without_memory by assumption. simpl.
      split; [reflexivity |]. split; [exact Hs |].
      unfold s2. destruct s; reflexivity.
    - assert (Hoom2 : heap_exhausted s2 = false) by (unfold s2; destruct s; exact Hoom).
      rewrite !open_unfold by assumption.
      fold (requested path flags s). fold (requested path flags s2).
      unfold open_receive, bind.
      assert (Hi1 : inbox (requested path flags s) = inbox s) by (destruct s; reflexivity).
      assert (Hi2 : inbox (requested path flags s2) = completed (inbox s))
        by (unfold s2; destruct s; reflexivity).
      rewrite Hi1, Hi2.
      destruct (open_wait_completed (inbox s) (requested path flags s)
                  (requested path flags s2)) as (F & S & I).
      + unfold s2, same_state, requested, sent. destruct s; simpl. auto.
      + rewrite Hi2, Hi1. reflexivity.
      + exact Hi1.
      + destruct (open_wait (inbox s) (requested path flags s)) as [o1 t1].
        destruct (open_wait (completed (inbox s)) (requested path flags s2)) as [o2 t2].
        simpl in *. subst o2.
        destruct o1 as [[r|c]| |]; simpl; auto.
        destruct (open_reply_same_state r t1 t2 S) as (F' & S').
        rewrite !open_reply_inbox.
        destruct (open_reply r t1) as [a1 u1], (open_reply r t2) as [a2 u2].
        simpl in *. auto. }
  destruct Hopen as (O1 & O2 & O3).
  split; [exact O1 |]. split; [exact O2 |]. split; [exact O3 |].
  unfold launcher_weston_launch_data.
  destruct (truthy (Z.land mask (Z.lor WL_EVENT_HANGUP WL_EVENT_ERROR))).
  - unfold bind, weston_log, modify, exit. simpl.
    destruct (restore_eq (emit (EvLog "launcher socket closed, exiting" []) s))
      as (u1 & -> & L1 & A1 & I1 & _).
    destruct (restore_eq (emit (EvLog "launcher socket closed, exiting" []) s2))
      as (u2 & -> & L2 & A2 & I2 & _).
    simpl. split; [reflexivity |].
    unfold same_state. rewrite L1, L2, A1, A2, I1, I2.
    unfold s2. destruct s; simpl. auto.
  - unfold bind, get, modify. simpl.
    replace (launcher s2) with (launcher s) by (unfold s2; destruct s; reflexivity).
    destruct (truthy (deferred_deactivate (launcher s))).
    + rewrite !handle_deactivate_delivered. simpl. split; [reflexivity |].
      apply delivered_same_state. unfold s2, same_state. destruct s; simpl. auto.
    + unfold read_notification, bind.
      replace (inbox s2) with (completed (inbox s)) by (unfold s2; destruct s; reflexivity).
      destruct (recv_loop_completed (inbox s) s s2 Hs) as (F & S).
      destruct (recv_loop (inbox s) s) as [o1 t1].
      destruct (recv_loop (completed (inbox s)) s2) as [o2 t2].
      simpl in *. subst o2.
      destruct o1 as [r| |]; simpl; auto.
      destruct (r_id r =? WESTON_LAUNCHER_ACTIVATE).
      * unfold wl_signal_emit_session, bind, modify, get, ret. simpl.
        split; [reflexivity |]. unfold same_state in *.
        destruct t1, t2; simpl in *. intuition.
      * destruct (r_id r =? WESTON_LAUNCHER_DEACTIVATE).
        -- rewrite !handle_deactivate_delivered. simpl. split; [reflexivity |].
           apply delivered_same_state. exact S.
        -- unfold weston_log, modify, ret. simpl. split; [reflexivity |].
           unfold same_state in *. destruct t1, t2; simpl in *. exact S.
Qed.

End Interrupted_reads.

(** ** Further properties: the connection over its life *)

Section Lifetime.
Context {proto : weston_launch_h}.

Lemma same_wiring_refl s : same_wiring s s.
Proof. unfold same_wiring. auto. Qed.

Lemma same_wiring_trans s1 s2 s3 :
  same_wiring s1 s2 -> same_wiring s2 s3 -> same_wiring s1 s3.
Proof. unfold same_wiring. intuition congruence. Qed.

Lemma same_wiring_launcher s s' : launcher s' = launcher s -> same_wiring s s'.
Proof. intros H. unfold same_wiring. rewrite H. auto. Qed.

Lemma open_same_wiring path flags s :
  same_wiring s (snd (launcher_weston_launch_open path flags s)).
Proof.
  destruct (launcher_weston_launch_open path flags s) as [o s'] eqn:H.
  apply open_effect in H. destruct H as ((A & B & C & D & E & _) & _).
  unfold same_wiring. auto.
Qed.

Lemma delivered_cleared_same_wiring s :
  same_wiring s (delivered (set_deferred_deactivate 0 s)).
Proof.
  destruct (delivered_effect (set_deferred_deactivate 0 s)) as (L & _).
  unfold same_wiring. rewrite L. destruct s; simpl. auto.
Qed.

Lemma dispatch_idle_same_wiring s : same_wiring s (snd (dispatch_idle s)).
Proof.
  unfold dispatch_idle. destruct (idle s) as [|[] q]; [apply same_wiring_refl |].
  rewrite idle_deactivate_eq.
  assert (H0 : same_wiring s (set_idle q s))
    by (apply same_wiring_launcher; destruct s; reflexivity).
  destruct (truthy _); simpl; [| exact H0].
  eapply same_wiring_trans; [exact H0 | apply delivered_cleared_same_wiring].
Qed.

Lemma data_same_wiring fildes mask s :
  same_wiring s (snd (launcher_weston_launch_data fildes mask s)).
Proof.
  unfold launcher_weston_launch_data.
  destruct (truthy (Z.land mask (Z.lor WL_EVENT_HANGUP WL_EVENT_ERROR))).
  - unfold bind, weston_log, modify, exit.
    destruct (restore_eq (emit (EvLog "launcher socket closed, exiting" []) s))
      as (s' & -> & L & _). simpl.
    apply same_wiring_launcher. rewrite L. destruct s; reflexivity.
  - unfold bind, get, modify. simpl.
    destruct (truthy (deferred_deactivate (launcher s))).
    + rewrite handle_deactivate_delivered. simpl. apply delivered_cleared_same_wiring.
    + unfold read_notification, bind.
      destruct (recv_loop (inbox s) s) as [o s1] eqn:Hr.
      pose proof (recv_loop_effect _ _ _ _ Hr) as (L & _).
      destruct o as [r| |]; simpl; try (apply same_wiring_launcher; exact L).
      destruct (r_id r =? WESTON_LAUNCHER_ACTIVATE).
      * unfold wl_signal_emit_session, bind, modify, get, ret. simpl.
        apply same_wiring_launcher. rewrite <- L. destruct s1; reflexivity.
      * destruct (r_id r =? WESTON_LAUNCHER_DEACTIVATE).
        -- rewrite handle_deactivate_delivered. simpl.
           destruct (delivered_effect s1) as (L1 & _).
           apply same_wiring_launcher. congruence.
        -- unfold weston_log, modify, ret. simpl.
           apply same_wiring_launcher. rewrite <- L. destruct s1; reflexivity.
Qed.

Lemma perform_same_wiring a s : same_wiring s (snd (perform a s)).
Proof.
  destruct a as [path flags| |mask]; simpl.
  - unfold bind, ret. pose proof (open_same_wiring path flags s) as H.
    destruct (launcher_weston_launch_open path flags s) as [[v| |] s1]; exact H.
  - apply dispatch_idle_same_wiring.
  - unfold bind, get, ret. simpl.
    pose proof (data_same_wiring (fd (launcher s)) mask s) as H.
    destruct (launcher_weston_launch_data (fd (launcher s)) mask s) as [[v| |] s1]; exact H.
Qed.

Lemma run_same_wiring acts : forall s, same_wiring s (snd (run acts s)).
Proof.
  induction acts as [|a acts IH]; intros s; simpl; [apply same_wiring_refl |].
  unfold bind. pose proof (perform_same_wiring a s) as H.
  destruct (perform a s) as [[[]| |] s1]; simpl in *; try exact H.
  eapply same_wiring_trans; [exact H | apply IH].
Qed.

(** X11: nothing that happens to a connection after it is made changes
    what it is wired to.  Through any sequence of open calls, idle
    dispatches and socket dispatches, however it ends, the socket, the
    terminal, the event source, the cached keyboard mode and the device
    descriptor of the connection stay what they were; only the
    deferred-deactivation flag ever changes. *)
Theorem connection_wiring_fixed :
  forall (acts : list action) (l : launcher_weston_launch) (active : bool)
         (rx : list recv_result) (tx : list send_result)
         (ioc : Z -> Z -> Z -> Z) (oom : bool),
    fd (launcher (snd (run acts (boot l active rx tx ioc oom)))) = fd l
    /\ source (launcher (snd (run acts (boot l active rx tx ioc oom)))) = source l
    /\ kb_mode (launcher (snd (run acts (boot l active rx tx ioc oom)))) = kb_mode l
    /\ tty (launcher (snd (run acts (boot l active rx tx ioc oom)))) = tty l
    /\ drm_fd (launcher (snd (run acts (boot l active rx tx ioc oom)))) = drm_fd l.
Proof.
  intros acts l active rx tx ioc oom.
  exact (run_same_wiring acts (boot l active rx tx ioc oom)).
Qed.

Lemma destroy_live s :
  fd (launcher s) <> -1 ->
  launcher_weston_launch_destroy s
  = (Done tt,
     mkSession (launcher s) (session_active s) (idle s) (inbox s) (sendq s)
               (ioctl_ret s) (heap_exhausted s)
               (trace s ++ [EvClose (fd (launcher s)); EvSourceRemove (source (launcher s))]
                        ++ close_tty_calls (launcher s) ++ [EvFree])).
Proof.
  intros H. unfold launcher_weston_launch_destroy, bind, get, when, modify, ret,
    close_tty_calls. simpl.
  destruct (Z.eqb_spec (fd (launcher s)) (-1)); [contradiction |]. simpl.
  destruct (0 <=? tty (launcher s)); destruct s; unfold emit; simpl;
    rewrite <- ?app_assoc; simpl; reflexivity.
Qed.

End Lifetime.

Section Lifetime_from_connect.
Context {proto : weston_launch_h} {helpers : string_helpers_h}.

(** X12: a connection made by [launcher_weston_launch_connect] never has
    its socket field at -1, whatever open calls and dispatches came in
    between, so [launcher_weston_launch_destroy] on it always takes the
    branch for a live channel: it closes the socket, removes the event
    source, closes the terminal if there is one and frees the object,
    without a single call of the restoration sequence, and with the cached
    keyboard mode still K_UNICODE and the device descriptor still -1. *)
Theorem destroy_after_connect_never_restores :
  forall (malloc_ok : bool) (src tty_arg : Z) (seat_id : string) (sync_drm : bool)
         (p : process) (l : launcher_weston_launch)
         (acts : list action) (active : bool) (rx : list recv_result)
         (tx : list send_result) (ioc : Z -> Z -> Z -> Z) (oom : bool),
    c_out (launcher_weston_launch_connect malloc_ok src tty_arg seat_id sync_drm p) = Some l ->
    fd (launcher (snd (run acts (boot l active rx tx ioc oom)))) <> -1
    /\ kb_mode (launcher (snd (run acts (boot l active rx tx ioc oom)))) = K_UNICODE
    /\ drm_fd (launcher (snd (run acts (boot l active rx tx ioc oom)))) = -1
    /\ trace (snd (launcher_weston_launch_destroy
                     (snd (run acts (boot l active rx tx ioc oom)))))
       = trace (snd (run acts (boot l active rx tx ioc oom)))
         ++ [EvClose (fd l); EvSourceRemove (source l)]
         ++ close_tty_calls l ++ [EvFree]
    /\ count is_restore_call
         (trace (snd (launcher_weston_launch_destroy
                        (snd (run acts (boot l active rx tx ioc oom))))))
       = count is_restore_call (trace (snd (run acts (boot l active rx tx ioc oom)))).
Proof.
  intros malloc_ok src tty_arg seat_id sync_drm p l acts active rx tx ioc oom Hout.
  destruct (connect_launcher_fresh _ _ _ _ _ _ _ Hout) as (Hd & _ & Hk & Hfd).
  destruct (run_same_wiring acts (boot l active rx tx ioc oom)) as (A & B & C & D & E).
  simpl in A, B, C, D, E.
  set (s := snd (run acts (boot l active rx tx ioc oom))) in *.
  split; [congruence |]. split; [congruence |]. split; [congruence |].
  rewrite destroy_live by congruence. simpl.
  unfold close_tty_calls. rewrite A, B, D.
  split; [reflexivity |].
  rewrite !count_app. simpl.
  destruct (0 <=? tty l); simpl; lia.
Qed.

End Lifetime_from_connect.

Lemma destroy_after_connect_never_restores_witness :
  trace (snd (launcher_weston_launch_destroy
                (snd (run [CallOpen "/dev/dri/card0" 2; DispatchIdle]
                          session_deactivate_then_reply_8))))
  = trace (snd (run [CallOpen "/dev/dri/card0" 2; DispatchIdle]
                    session_deactivate_then_reply_8))
    ++ [EvClose 5; EvSourceRemove 1; EvClose 6; EvFree].
Proof.
  assert (H : c_out (launcher_weston_launch_connect true 1 7 "seat0" false sample_process)
              = Some sample_launcher) by (vm_compute; reflexivity).
  exact (proj1 (proj2 (proj2 (proj2
           (destroy_after_connect_never_restores true 1 7 "seat0" false sample_process
              sample_launcher [CallOpen "/dev/dri/card0" 2; DispatchIdle] true
              [deactivate_msg; open_reply_msg 0 (Some 8)] [] all_ioctls_succeed false H))))).
Defined.

Section Teardown_of_connections.
Context {proto : weston_launch_h} {helpers : string_helpers_h}.


End Teardown_of_connections.



Section Teardown_effects.
Context {proto : weston_launch_h}.

(** X13: the restoration sequence reports each failed step with one log
    line and nothing else: the keyboard step is reported only when both the
    unmute and the fallback keyboard-mode request fail, the text-mode step
    when KDSETMODE answers anything but 0, and the VT step only when
    VT_SETMODE answers a negative value; the lines come in the order of the
    steps. *)
Theorem restore_logs_failed_steps :
  forall s : session,
    exists s' ext,
      launcher_weston_launch_restore s = (Done tt, s')
      /\ trace s' = trace s ++ ext
      /\ logs ext
         = (if truthy (ioctl_ret s (tty (launcher s)) KDSKBMUTE 0)
               && truthy (ioctl_ret s (tty (launcher s)) KDSKBMODE (kb_mode (launcher s)))
            then [EvLog "failed to restore kb mode: %s" []] else [])
           ++ (if truthy (ioctl_ret s (tty (launcher s)) KDSETMODE KD_TEXT)
               then [EvLog "failed to set KD_TEXT mode on tty: %s" []] else [])
           ++ (if ioctl_ret s (tty (launcher s)) VT_SETMODE VT_AUTO <? 0
               then [EvLog "could not reset vt handling" []] else []).
Proof.
  intros s.
  unfold launcher_weston_launch_restore, ioctl, drmDropMaster,
    weston_log, when, bind, modify, get, ret.
  destruct s as [l a i rx tx ioc oom t]. simpl.
  destruct (truthy (ioc (tty l) KDSKBMUTE 0)); simpl;
    [destruct (truthy (ioc (tty l) KDSKBMODE (kb_mode l))); simpl |];
    destruct (truthy (ioc (tty l) KDSETMODE KD_TEXT)); simpl;
    destruct (ioc (tty l) VT_SETMODE VT_AUTO <? 0); simpl;
    (eexists; eexists; split; [reflexivity |]; simpl;
     rewrite <- ?app_assoc; simpl; split; reflexivity).
Qed.

(** X14: [launcher_weston_launch_destroy] tells nobody and cancels nothing:
    it always returns, makes no call of [send] and reads nothing from the
    socket, emits no session signal and leaves the compositor's
    [session_active] alone, frees the connection object exactly once, and
    the idle callbacks pending on the event loop, that of a deferred
    deactivation among them, are still pending once the object is freed. *)
Theorem destroy_cancels_nothing :
  forall s : session,
    fst (launcher_weston_launch_destroy s) = Done tt
    /\ idle (snd (launcher_weston_launch_destroy s)) = idle s
    /\ inbox (snd (launcher_weston_launch_destroy s)) = inbox s
    /\ sendq (snd (launcher_weston_launch_destroy s)) = sendq s
    /\ session_active (snd (launcher_weston_launch_destroy s)) = session_active s
    /\ count is_send (trace (snd (launcher_weston_launch_destroy s)))
       = count is_send (trace s)
    /\ replay (session_active s) (trace (snd (launcher_weston_launch_destroy s)))
       = replay (session_active s) (trace s)
    /\ count is_free (trace (snd (launcher_weston_launch_destroy s)))
       = S (count is_free (trace s)).
Proof.
  intros s.
  destruct (Z.eq_dec (fd (launcher s)) (-1)) as [E|E].
  - unfold launcher_weston_launch_destroy, bind, get, when, modify, ret. simpl.
    rewrite E. simpl.
    destruct (restore_eq s) as (s' & -> & L & A & I & R & Q & ext & T & C). simpl.
    assert (Hsend : count is_send ext = 0%nat).
    { rewrite <- (count_calls is_send ext), C by reflexivity.
      unfold restore_calls. destruct (truthy _); reflexivity. }
    assert (Hfree : count is_free ext = 0%nat).
    { rewrite <- (count_calls is_free ext), C by reflexivity.
      unfold restore_calls. destruct (truthy _); reflexivity. }
    assert (Hrep : forall a, replay a ext = a).
    { intros a. rewrite <- replay_calls, C. unfold restore_calls.
      destruct (truthy _); reflexivity. }
    destruct (0 <=? tty (launcher s)); destruct s'; simpl in *; subst;
      rewrite !count_app, !replay_app, Hsend, Hfree, !Hrep; simpl;
      repeat split; lia.
  - rewrite destroy_live by assumption. simpl.
    unfold close_tty_calls.
    destruct (0 <=? tty (launcher s)); simpl;
      rewrite !count_app, !replay_app; simpl; repeat split; lia.
Qed.

End Teardown_effects.
